(** * native_crypto: the AEAD wrappers of [src/native_crypto/src/crypto.c]

    The four exported functions ([encrypt_aes_gcm_256], [decrypt_aes_gcm_256],
    [encrypt_chacha20_poly1305], [decrypt_chacha20_poly1305]) sequence calls
    into the AEAD interface of [<openssl/aead.h>] and translate their outcome
    into an [int].  The cipher and MAC themselves live in that library, which
    is not part of the repository: it enters this development as a record of
    operations ([AeadLibrary]) over which the wrappers are parameterised.

    Conventions (LP64 C): [size_t] is 64 bits wide and unsigned, [int] is 32
    bits wide and two's complement; a conversion to [int] of a value that does
    not fit wraps modulo [2^32], as gcc and clang document it. *)

From Stdlib Require Import ZArith String List Bool Lia.
Import ListNotations.
Open Scope Z_scope.
Open Scope bool_scope.

(** ** C data *)

(** [uint8_t]. *)
Definition byte : Type := Z.

(** A [uint8_t*]: [None] is [NULL]; [Some bs] points at an object whose bytes,
    from the pointer on, are [bs]. *)
Definition ptr : Type := option (list byte).

Definition is_null (p : ptr) : bool :=
  match p with
  | None => true
  | Some _ => false
  end.

Definition contents (p : ptr) : list byte :=
  match p with
  | None => []
  | Some bs => bs
  end.

(** Arithmetic in [size_t]. *)
Definition size_t (z : Z) : Z := z mod 2 ^ 64.

(** The conversion [(int)x]. *)
Definition to_int (z : Z) : Z := (z + 2 ^ 31) mod 2 ^ 32 - 2 ^ 31.

Definition INT_MAX : Z := 2 ^ 31 - 1.

(** ** The AEAD library the wrappers call *)

(** What a seal or open call leaves behind: its return value ([1] or [0]),
    the value stored through [out_len], and the output buffer afterwards. *)
Record aead_result : Type := mk_aead_result {
  ret_ok : bool;
  out_len : Z;
  out_mem : ptr
}.

(** The declarations of [<openssl/aead.h>] that [crypto.c] uses.  Pointer and
    length arguments come in the order of the C prototypes:
    [EVP_AEAD_CTX_init alg key key_len tag_len] and
    [EVP_AEAD_CTX_seal ctx out max_out_len nonce nonce_len in in_len ad ad_len]
    (same for open).  [EVP_AEAD_DEFAULT_TAG_LENGTH] is a macro of that
    header. *)
Record AeadLibrary : Type := mk_AeadLibrary {
  EVP_AEAD : Type;
  EVP_AEAD_CTX : Type;
  EVP_aead_aes_256_gcm : EVP_AEAD;
  EVP_aead_chacha20_poly1305 : EVP_AEAD;
  EVP_AEAD_key_length : EVP_AEAD -> Z;
  EVP_AEAD_max_overhead : EVP_AEAD -> Z;
  EVP_AEAD_DEFAULT_TAG_LENGTH : Z;
  EVP_AEAD_CTX_init : EVP_AEAD -> ptr -> Z -> Z -> option EVP_AEAD_CTX;
  EVP_AEAD_CTX_seal :
    EVP_AEAD_CTX -> ptr -> Z -> ptr -> Z -> ptr -> Z -> ptr -> Z -> aead_result;
  EVP_AEAD_CTX_open :
    EVP_AEAD_CTX -> ptr -> Z -> ptr -> Z -> ptr -> Z -> ptr -> Z -> aead_result
}.

(** ** Effects of one call *)

(** The library calls and the diagnostics a call performs, in order; a seal
    or open is recorded with the room it was told the output buffer has. *)
Inductive event : Type :=
| EvInit (ok : bool)
| EvSeal (max_out_len : Z) (ok : bool)
| EvOpen (max_out_len : Z) (ok : bool)
| EvCleanup
| EvDiag (context_message : string).

(** The caller's output buffer and the events so far. *)
Record machine : Type := mk_machine {
  outbuf : ptr;
  events : list event
}.

Definition M (A : Type) : Type := machine -> A * machine.

Definition mret {A : Type} (a : A) : M A := fun s => (a, s).

Definition mbind {A B : Type} (m : M A) (k : A -> M B) : M B :=
  fun s => let (a, s') := m s in k a s'.

Notation "x <- m ;; k" := (mbind m (fun x => k))
  (at level 61, m at next level, right associativity).
Notation "m ;;; k" := (mbind m (fun _ => k))
  (at level 61, right associativity).

Definition emit (e : event) : M unit :=
  fun s => (tt, mk_machine (outbuf s) (events s ++ [e])).

(** What the caller observes once the call has returned. *)
Record call_result : Type := mk_call_result {
  status : Z;
  out : ptr;
  trace : list event
}.

Definition run (out0 : ptr) (m : M Z) : call_result :=
  let (r, s) := m (mk_machine out0 []) in
  mk_call_result r (outbuf s) (events s).

Section Codec.

Variable L : AeadLibrary.

(** *** Library calls as effects *)

Definition CTX_init (alg : EVP_AEAD L) (key : ptr) (key_len tag_len : Z)
  : M (option (EVP_AEAD_CTX L)) :=
  fun s =>
    let c := EVP_AEAD_CTX_init L alg key key_len tag_len in
    (c, mk_machine (outbuf s)
          (events s ++ [EvInit (match c with Some _ => true | None => false end)])).

Definition CTX_seal (ctx : EVP_AEAD_CTX L) (max_out_len : Z)
  (nonce : ptr) (nonce_len : Z) (inp : ptr) (in_len : Z)
  (ad : ptr) (ad_len : Z) : M (bool * Z) :=
  fun s =>
    let r := EVP_AEAD_CTX_seal L ctx (outbuf s) max_out_len
               nonce nonce_len inp in_len ad ad_len in
    ((ret_ok r, out_len r),
     mk_machine (out_mem r) (events s ++ [EvSeal max_out_len (ret_ok r)])).

Definition CTX_open (ctx : EVP_AEAD_CTX L) (max_out_len : Z)
  (nonce : ptr) (nonce_len : Z) (inp : ptr) (in_len : Z)
  (ad : ptr) (ad_len : Z) : M (bool * Z) :=
  fun s =>
    let r := EVP_AEAD_CTX_open L ctx (outbuf s) max_out_len
               nonce nonce_len inp in_len ad ad_len in
    ((ret_ok r, out_len r),
     mk_machine (out_mem r) (events s ++ [EvOpen max_out_len (ret_ok r)])).

Definition CTX_cleanup : M unit := emit EvCleanup.

(** [handle_boringssl_errors]: the context message and the library's error
    queue go to [stderr]. *)
Definition handle_boringssl_errors (context_message : string) : M unit :=
  emit (EvDiag context_message).

(** The code under a [cleanup_...] label. *)
Definition cleanup (result_status : Z) : M Z :=
  CTX_cleanup ;;; mret result_status.

(** *** The four exported functions *)

Definition encrypt_aes_gcm_256
  (plaintext : ptr) (plaintext_len : Z) (key nonce : ptr) (nonce_len : Z)
  (aad : ptr) (aad_len : Z) (out_ciphertext_tag : ptr) : call_result :=
  run out_ciphertext_tag (
    let aead_alg := EVP_aead_aes_256_gcm L in
    let max_out_len := size_t (plaintext_len + EVP_AEAD_max_overhead L aead_alg) in
    let result_status := -1 in
    if is_null plaintext || is_null key || is_null nonce
       || is_null out_ciphertext_tag then mret (-1)
    else if negb (EVP_AEAD_key_length L aead_alg =? 32) then mret (-1)
    else if negb (nonce_len =? 12) then mret (-1)
    else
      c <- CTX_init aead_alg key (EVP_AEAD_key_length L aead_alg)
             (size_t (EVP_AEAD_DEFAULT_TAG_LENGTH L)) ;;
      match c with
      | None =>
          handle_boringssl_errors "EVP_AEAD_CTX_init (encrypt AES)" ;;;
          cleanup result_status
      | Some ctx =>
          r <- CTX_seal ctx max_out_len nonce nonce_len
                 plaintext plaintext_len aad aad_len ;;
          let (ok, actual_out_len) := r in
          if negb ok then
            handle_boringssl_errors "EVP_AEAD_CTX_seal (AES)" ;;;
            cleanup result_status
          else
            let result_status := to_int actual_out_len in
            cleanup result_status
      end).

Definition decrypt_aes_gcm_256
  (ciphertext_tag : ptr) (ciphertext_tag_len : Z) (key nonce : ptr)
  (nonce_len : Z) (aad : ptr) (aad_len : Z) (out_plaintext : ptr)
  : call_result :=
  run out_plaintext (
    let aead_alg := EVP_aead_aes_256_gcm L in
    let max_out_len := ciphertext_tag_len in
    let result_status := -1 in
    if is_null ciphertext_tag || is_null key || is_null nonce
       || is_null out_plaintext then mret (-1)
    else if negb (EVP_AEAD_key_length L aead_alg =? 32) then mret (-1)
    else if negb (nonce_len =? 12) then mret (-1)
    else if ciphertext_tag_len <? size_t (EVP_AEAD_DEFAULT_TAG_LENGTH L)
    then mret (-2)
    else
      c <- CTX_init aead_alg key (EVP_AEAD_key_length L aead_alg)
             (size_t (EVP_AEAD_DEFAULT_TAG_LENGTH L)) ;;
      match c with
      | None =>
          handle_boringssl_errors "EVP_AEAD_CTX_init (decrypt AES)" ;;;
          cleanup result_status
      | Some ctx =>
          r <- CTX_open ctx max_out_len nonce nonce_len
                 ciphertext_tag ciphertext_tag_len aad aad_len ;;
          let (ok, actual_out_len) := r in
          if negb ok then
            handle_boringssl_errors "EVP_AEAD_CTX_open (AES)" ;;;
            let result_status := -2 in
            cleanup result_status
          else
            let result_status := to_int actual_out_len in
            cleanup result_status
      end).

Definition encrypt_chacha20_poly1305
  (plaintext : ptr) (plaintext_len : Z) (key nonce : ptr) (nonce_len : Z)
  (aad : ptr) (aad_len : Z) (out_ciphertext_tag : ptr) : call_result :=
  run out_ciphertext_tag (
    let aead_alg := EVP_aead_chacha20_poly1305 L in
    let max_out_len := size_t (plaintext_len + EVP_AEAD_max_overhead L aead_alg) in
    let result_status := -1 in
    if is_null plaintext || is_null key || is_null nonce
       || is_null out_ciphertext_tag then mret (-1)
    else if negb (EVP_AEAD_key_length L aead_alg =? 32) then mret (-1)
    else if negb (nonce_len =? 12) then mret (-1)
    else
      c <- CTX_init aead_alg key (EVP_AEAD_key_length L aead_alg)
             (size_t (EVP_AEAD_DEFAULT_TAG_LENGTH L)) ;;
      match c with
      | None =>
          handle_boringssl_errors "EVP_AEAD_CTX_init (encrypt ChaCha)" ;;;
          cleanup result_status
      | Some ctx =>
          r <- CTX_seal ctx max_out_len nonce nonce_len
                 plaintext plaintext_len aad aad_len ;;
          let (ok, actual_out_len) := r in
          if negb ok then
            handle_boringssl_errors "EVP_AEAD_CTX_seal (ChaCha)" ;;;
            cleanup result_status
          else
            let result_status := to_int actual_out_len in
            cleanup result_status
      end).

Definition decrypt_chacha20_poly1305
  (ciphertext_tag : ptr) (ciphertext_tag_len : Z) (key nonce : ptr)
  (nonce_len : Z) (aad : ptr) (aad_len : Z) (out_plaintext : ptr)
  : call_result :=
  run out_plaintext (
    let aead_alg := EVP_aead_chacha20_poly1305 L in
    let max_out_len := ciphertext_tag_len in
    let result_status := -1 in
    if is_null ciphertext_tag || is_null key || is_null nonce
       || is_null out_plaintext then mret (-1)
    else if negb (EVP_AEAD_key_length L aead_alg =? 32) then mret (-1)
    else if negb (nonce_len =? 12) then mret (-1)
    else if ciphertext_tag_len <? size_t (EVP_AEAD_DEFAULT_TAG_LENGTH L)
    then mret (-2)
    else
      c <- CTX_init aead_alg key (EVP_AEAD_key_length L aead_alg)
             (size_t (EVP_AEAD_DEFAULT_TAG_LENGTH L)) ;;
      match c with
      | None =>
          handle_boringssl_errors "EVP_AEAD_CTX_init (decrypt ChaCha)" ;;;
          cleanup result_status
      | Some ctx =>
          r <- CTX_open ctx max_out_len nonce nonce_len
                 ciphertext_tag ciphertext_tag_len aad aad_len ;;
          let (ok, actual_out_len) := r in
          if negb ok then
            handle_boringssl_errors "EVP_AEAD_CTX_open (ChaCha)" ;;;
            let result_status := -2 in
            cleanup result_status
          else
            let result_status := to_int actual_out_len in
            cleanup result_status
      end).

End Codec.

(** ** Both engines at once *)

Inductive algorithm : Type :=
| AES_256_GCM
| CHACHA20_POLY1305.

Definition aead_of (L : AeadLibrary) (a : algorithm) : EVP_AEAD L :=
  match a with
  | AES_256_GCM => EVP_aead_aes_256_gcm L
  | CHACHA20_POLY1305 => EVP_aead_chacha20_poly1305 L
  end.

Definition encrypt (L : AeadLibrary) (a : algorithm)
  : ptr -> Z -> ptr -> ptr -> Z -> ptr -> Z -> ptr -> call_result :=
  match a with
  | AES_256_GCM => encrypt_aes_gcm_256 L
  | CHACHA20_POLY1305 => encrypt_chacha20_poly1305 L
  end.

Definition decrypt (L : AeadLibrary) (a : algorithm)
  : ptr -> Z -> ptr -> ptr -> Z -> ptr -> Z -> ptr -> call_result :=
  match a with
  | AES_256_GCM => decrypt_aes_gcm_256 L
  | CHACHA20_POLY1305 => decrypt_chacha20_poly1305 L
  end.

(** The four context messages handed to [handle_boringssl_errors]. *)
Definition init_message (enc : bool) (a : algorithm) : string :=
  match enc, a with
  | true, AES_256_GCM => "EVP_AEAD_CTX_init (encrypt AES)"
  | true, CHACHA20_POLY1305 => "EVP_AEAD_CTX_init (encrypt ChaCha)"
  | false, AES_256_GCM => "EVP_AEAD_CTX_init (decrypt AES)"
  | false, CHACHA20_POLY1305 => "EVP_AEAD_CTX_init (decrypt ChaCha)"
  end.

Definition step_message (enc : bool) (a : algorithm) : string :=
  match enc, a with
  | true, AES_256_GCM => "EVP_AEAD_CTX_seal (AES)"
  | true, CHACHA20_POLY1305 => "EVP_AEAD_CTX_seal (ChaCha)"
  | false, AES_256_GCM => "EVP_AEAD_CTX_open (AES)"
  | false, CHACHA20_POLY1305 => "EVP_AEAD_CTX_open (ChaCha)"
  end.

(** The argument checks shared by the four functions: a required pointer is
    [NULL], the algorithm's key length is not 32, or the nonce length is not
    12. *)
Definition misuse (L : AeadLibrary) (a : algorithm)
  (data key nonce : ptr) (nonce_len : Z) (outp : ptr) : bool :=
  is_null data || is_null key || is_null nonce || is_null outp
  || negb (EVP_AEAD_key_length L (aead_of L a) =? 32)
  || negb (nonce_len =? 12).

(** The comparison of the short-input guard in the decrypt functions. *)
Definition below_guard (L : AeadLibrary) (ciphertext_tag_len : Z) : bool :=
  ciphertext_tag_len <? size_t (EVP_AEAD_DEFAULT_TAG_LENGTH L).

(** The context the wrappers obtain for a key. *)
Definition context_for (L : AeadLibrary) (a : algorithm) (key : ptr)
  : option (EVP_AEAD_CTX L) :=
  EVP_AEAD_CTX_init L (aead_of L a) key
    (EVP_AEAD_key_length L (aead_of L a))
    (size_t (EVP_AEAD_DEFAULT_TAG_LENGTH L)).

(** The seal call of an encrypt, the open call of a decrypt. *)
Definition seal_call (L : AeadLibrary) (a : algorithm) (ctx : EVP_AEAD_CTX L)
  (plaintext : ptr) (plaintext_len : Z) (nonce : ptr) (nonce_len : Z)
  (aad : ptr) (aad_len : Z) (outp : ptr) : aead_result :=
  EVP_AEAD_CTX_seal L ctx outp
    (size_t (plaintext_len + EVP_AEAD_max_overhead L (aead_of L a)))
    nonce nonce_len plaintext plaintext_len aad aad_len.

Definition open_call (L : AeadLibrary) (ctx : EVP_AEAD_CTX L)
  (ciphertext_tag : ptr) (ciphertext_tag_len : Z) (nonce : ptr) (nonce_len : Z)
  (aad : ptr) (aad_len : Z) (outp : ptr) : aead_result :=
  EVP_AEAD_CTX_open L ctx outp ciphertext_tag_len
    nonce nonce_len ciphertext_tag ciphertext_tag_len aad aad_len.

(** ** Buffers and well-formed calls *)

(** The [n] bytes at [p]. *)
Definition region (p : ptr) (n : Z) : list byte :=
  firstn (Z.to_nat n) (contents p).

(** [p] may be read for [n] bytes; [NULL] may be read for none. *)
Definition readable (p : ptr) (n : Z) : Prop :=
  0 <= n <= Z.of_nat (length (contents p)).

(** [p] is not [NULL] and addresses at least [n] bytes. *)
Definition valid (p : ptr) (n : Z) : Prop :=
  is_null p = false /\ readable p n.

(** The buffer at [p] after [bs] has been written to its start. *)
Definition store (p : ptr) (bs : list byte) : ptr :=
  Some (bs ++ skipn (length bs) (contents p)).

(** The preconditions of an encrypt call: required buffers present and as
    long as announced, a 32-byte key, a 12-byte nonce, room for the tag. *)
Record encrypt_call_ok (plaintext : ptr) (plaintext_len : Z)
  (key nonce aad : ptr) (aad_len : Z) (outp : ptr) : Prop := {
  ok_plaintext : valid plaintext plaintext_len;
  ok_key : valid key 32;
  ok_nonce : valid nonce 12;
  ok_aad : readable aad aad_len;
  ok_out : valid outp (plaintext_len + 16);
  ok_size : plaintext_len + 16 < 2 ^ 64
}.

(** ** Tampering *)

(** Bit [j] of byte [i] inverted. *)
Fixpoint flip_bit (bs : list byte) (i : nat) (j : Z) : list byte :=
  match bs, i with
  | [], _ => []
  | b :: rest, O => Z.lxor b (2 ^ j) :: rest
  | b :: rest, S i' => b :: flip_bit rest i' j
  end.

Definition flip (p : ptr) (i : nat) (j : Z) : ptr :=
  option_map (fun bs => flip_bit bs i j) p.

(** What a decrypt call is given. *)
Record message : Type := mk_message {
  m_sealed : ptr;
  m_len : Z;
  m_key : ptr;
  m_nonce : ptr;
  m_aad : ptr;
  m_aad_len : Z
}.

Inductive target : Type :=
| InCiphertext
| InTag
| InNonce
| InKey
| InAad.

Definition tamper (t : target) (i : nat) (j : Z) (m : message) : message :=
  match t with
  | InCiphertext =>
      mk_message (flip (m_sealed m) i j) (m_len m) (m_key m) (m_nonce m)
        (m_aad m) (m_aad_len m)
  | InTag =>
      mk_message (flip (m_sealed m) (Z.to_nat (m_len m - 16) + i) j) (m_len m)
        (m_key m) (m_nonce m) (m_aad m) (m_aad_len m)
  | InNonce =>
      mk_message (m_sealed m) (m_len m) (m_key m) (flip (m_nonce m) i j)
        (m_aad m) (m_aad_len m)
  | InKey =>
      mk_message (m_sealed m) (m_len m) (flip (m_key m) i j) (m_nonce m)
        (m_aad m) (m_aad_len m)
  | InAad =>
      mk_message (m_sealed m) (m_len m) (m_key m) (m_nonce m)
        (flip (m_aad m) i j) (m_aad_len m)
  end.

(** Byte [i], bit [j] exists in the part of the message named by [t]. *)
Definition in_range (t : target) (i : nat) (j : Z) (m : message) : Prop :=
  0 <= j < 8 /\
  match t with
  | InCiphertext => Z.of_nat i < m_len m - 16
  | InTag => Z.of_nat i < 16
  | InNonce => Z.of_nat i < 12
  | InKey => Z.of_nat i < 32
  | InAad => Z.of_nat i < m_aad_len m
  end.

(** ** What the wrappers expect of the library *)

(** The library works as an AEAD for algorithm [a] on plaintexts of up to
    [limit] bytes: 32-byte keys, 16 bytes of overhead, initialisation
    succeeds, sealing succeeds and reports [in_len + 16] bytes, and opening
    what was sealed gives the plaintext back. *)
Record AeadSound (L : AeadLibrary) (a : algorithm) (limit : Z) : Prop := {
  sound_key_length : EVP_AEAD_key_length L (aead_of L a) = 32;
  sound_overhead : EVP_AEAD_max_overhead L (aead_of L a) = 16;
  sound_default_tag : size_t (EVP_AEAD_DEFAULT_TAG_LENGTH L) <= 16;
  sound_init : forall key, valid key 32 -> context_for L a key <> None;
  sound_seal :
    forall plaintext plaintext_len key nonce aad aad_len outp ctx,
      encrypt_call_ok plaintext plaintext_len key nonce aad aad_len outp ->
      plaintext_len <= limit ->
      context_for L a key = Some ctx ->
      let r := seal_call L a ctx plaintext plaintext_len nonce 12
                 aad aad_len outp in
      ret_ok r = true /\ out_len r = plaintext_len + 16 /\
      valid (out_mem r) (plaintext_len + 16);
  sound_open :
    forall plaintext plaintext_len key nonce aad aad_len outp ctx outp2,
      encrypt_call_ok plaintext plaintext_len key nonce aad aad_len outp ->
      plaintext_len <= limit ->
      context_for L a key = Some ctx ->
      valid outp2 plaintext_len ->
      open_call L ctx
        (out_mem (seal_call L a ctx plaintext plaintext_len nonce 12
                    aad aad_len outp))
        (plaintext_len + 16) nonce 12 aad aad_len outp2 =
      mk_aead_result true plaintext_len
        (store outp2 (region plaintext plaintext_len))
}.

(** The library rejects a sealed message in which one bit of the ciphertext,
    the tag, the nonce, the key or the AAD was inverted.  What it leaves in
    the output buffer then is [residue out max_out_len]: it depends on the
    buffer and its announced size and on nothing of the message (a library
    may leave the buffer alone, or clear it). *)
Definition AeadAuthentic (L : AeadLibrary) (a : algorithm)
  (residue : ptr -> Z -> ptr) : Prop :=
  forall plaintext plaintext_len key nonce aad aad_len outp ctx,
    encrypt_call_ok plaintext plaintext_len key nonce aad aad_len outp ->
    context_for L a key = Some ctx ->
    let r := seal_call L a ctx plaintext plaintext_len nonce 12
               aad aad_len outp in
    ret_ok r = true ->
    forall t i j ctx' outp2,
      let m := mk_message (out_mem r) (plaintext_len + 16) key nonce
                 aad aad_len in
      in_range t i j m ->
      let m' := tamper t i j m in
      context_for L a (m_key m') = Some ctx' ->
      let r' := open_call L ctx' (m_sealed m') (m_len m') (m_nonce m') 12
                  (m_aad m') (m_aad_len m') outp2 in
      ret_ok r' = false /\ out_mem r' = residue outp2 (m_len m').

(** With [ad_len = 0] the library does not look at [ad]. *)
Definition EmptyAdUnread (L : AeadLibrary) : Prop :=
  forall ctx outp max_out_len nonce nonce_len inp in_len ad ad',
    EVP_AEAD_CTX_seal L ctx outp max_out_len nonce nonce_len inp in_len ad 0 =
    EVP_AEAD_CTX_seal L ctx outp max_out_len nonce nonce_len inp in_len ad' 0
    /\
    EVP_AEAD_CTX_open L ctx outp max_out_len nonce nonce_len inp in_len ad 0 =
    EVP_AEAD_CTX_open L ctx outp max_out_len nonce nonce_len inp in_len ad' 0.

(** An encrypt call whose context initialisation or seal step fails. *)
Definition engine_failure (L : AeadLibrary) (a : algorithm)
  (plaintext : ptr) (plaintext_len : Z) (key nonce : ptr) (nonce_len : Z)
  (aad : ptr) (aad_len : Z) (outp : ptr) : Prop :=
  misuse L a plaintext key nonce nonce_len outp = false /\
  match context_for L a key with
  | None => True
  | Some ctx =>
      ret_ok (seal_call L a ctx plaintext plaintext_len nonce nonce_len
                aad aad_len outp) = false
  end.

(** ** Reading a trace *)

Definition is_init (e : event) : bool :=
  match e with
  | EvInit _ => true
  | _ => false
  end.

Definition is_cleanup (e : event) : bool :=
  match e with
  | EvCleanup => true
  | _ => false
  end.

Definition count (f : event -> bool) (t : list event) : nat :=
  length (filter f t).

(** The call never touched a context, or it began with the initialisation,
    never initialised again, released once, and did so last. *)
Definition released_exactly_once (t : list event) : bool :=
  match t with
  | [] => true
  | e :: rest =>
      is_init e
      && (count is_init rest =? 0)%nat
      && (count is_cleanup rest =? 1)%nat
      && is_cleanup (last rest e)
  end.

(** The call got as far as initialising a context. *)
Definition reaches_init (r : call_result) : bool :=
  match trace r with
  | e :: _ => is_init e
  | [] => false
  end.

(** The library was asked to open. *)
Definition is_open (e : event) : bool :=
  match e with
  | EvOpen _ _ => true
  | _ => false
  end.

(** ** A small AEAD to run the wrappers with

    The cipher XORs every byte with one pad byte drawn from key and nonce;
    the tag is the XOR of all bytes of key, nonce, AAD and ciphertext,
    followed by fifteen zero bytes.  It has the interface of the library and
    detects every single inverted bit, which is all the examples need; it
    protects nothing.  [tag_macro] is the value given to
    [EVP_AEAD_DEFAULT_TAG_LENGTH]; with [healthy = false] the initialisation
    of a context fails. *)
Module ParityAead.

Definition xor_all (bs : list byte) : byte := fold_right Z.lxor 0 bs.

Definition pad (k nb : list byte) : byte := Z.lxor 90 (xor_all (k ++ nb)).

Definition tag (k nb ab ct : list byte) : list byte :=
  xor_all (k ++ nb ++ ab ++ ct) :: repeat 0 15.

Definition bytes_eqb (x y : list byte) : bool :=
  if list_eq_dec Z.eq_dec x y then true else false.

Definition init (healthy : bool) (alg : algorithm) (key : ptr)
  (key_len tag_len : Z) : option (list byte) :=
  if healthy && negb (is_null key) && (key_len =? 32)
  then Some (region key key_len)
  else None.

Definition ciphertext (k nb pb : list byte) : list byte :=
  map (Z.lxor (pad k nb)) pb.

Definition sealed (k nb ab pb : list byte) : list byte :=
  ciphertext k nb pb ++ tag k nb ab (ciphertext k nb pb).

Definition seal (k : list byte) (outp : ptr) (max_out_len : Z)
  (nonce : ptr) (nonce_len : Z) (inp : ptr) (in_len : Z)
  (ad : ptr) (ad_len : Z) : aead_result :=
  let s := sealed k (region nonce nonce_len) (region ad ad_len)
             (region inp in_len) in
  if max_out_len <? Z.of_nat (length s)
  then mk_aead_result false 0 outp
  else mk_aead_result true (Z.of_nat (length s)) (store outp s).

Definition open (k : list byte) (outp : ptr) (max_out_len : Z)
  (nonce : ptr) (nonce_len : Z) (inp : ptr) (in_len : Z)
  (ad : ptr) (ad_len : Z) : aead_result :=
  let nb := region nonce nonce_len in
  let cb := region inp in_len in
  let n := (length cb - 16)%nat in
  let ct := firstn n cb in
  if (16 <=? in_len) && (Z.of_nat n <=? max_out_len)
     && bytes_eqb (skipn n cb) (tag k nb (region ad ad_len) ct)
  then mk_aead_result true (Z.of_nat n) (store outp (ciphertext k nb ct))
  else mk_aead_result false 0 outp.

Definition library (tag_macro : Z) (healthy : bool) : AeadLibrary :=
  mk_AeadLibrary algorithm (list byte) AES_256_GCM CHACHA20_POLY1305
    (fun _ => 32) (fun _ => 16) tag_macro (init healthy) seal open.

End ParityAead.

(** [<openssl/aead.h>] is BoringSSL's; it defines
    [EVP_AEAD_DEFAULT_TAG_LENGTH] as [0], the value that asks
    [EVP_AEAD_CTX_init] for an algorithm's default tag length. *)
Definition boringssl_default_tag_length : Z := 0.

(** The parity AEAD leaves the output buffer alone when it rejects. *)
Definition untouched (outp : ptr) (max_out_len : Z) : ptr := outp.

(** ** Sample data *)

Definition zeros (n : Z) : ptr := Some (repeat 0 (Z.to_nat n)).

(** "hello". *)
Definition hello : ptr := Some [104; 101; 108; 108; 111].

Definition sample_aad : ptr := Some [1; 2; 3].

(** The library the examples run: the parity AEAD with the header's value
    of [EVP_AEAD_DEFAULT_TAG_LENGTH]. *)
Definition sample_library : AeadLibrary :=
  ParityAead.library boringssl_default_tag_length true.

(** The same with a context initialisation that fails. *)
Definition failing_library : AeadLibrary :=
  ParityAead.library boringssl_default_tag_length false.

(** "hello" sealed under a key of 32 zero bytes, a nonce of 12 zero bytes
    and no AAD. *)
Definition sealed_hello : ptr :=
  out (encrypt sample_library AES_256_GCM hello 5 (zeros 32) (zeros 12) 12
         None 0 (zeros 21)).

(** "hello" sealed with [sample_aad] as AAD, as a decrypt call is given it. *)
Definition hello_message : message :=
  mk_message
    (out (encrypt sample_library CHACHA20_POLY1305 hello 5 (zeros 32)
            (zeros 12) 12 sample_aad 3 (zeros 21)))
    21 (zeros 32) (zeros 12) sample_aad 3.

(** The decrypt of a message into a five-byte buffer. *)
Definition decrypt_message (m : message) : call_result :=
  decrypt sample_library CHACHA20_POLY1305 (m_sealed m) (m_len m) (m_key m)
    (m_nonce m) 12 (m_aad m) (m_aad_len m) (zeros 5).

(** ** Proof steps *)

(** Closes the cases of an equivalence between a return code and its causes. *)
Ltac settle_taxonomy :=
  repeat split; intros;
  repeat match goal with
         | H : _ /\ _ |- _ => destruct H
         | H : _ \/ _ |- _ => destruct H
         | H : exists _, _ |- _ => destruct H
         | H : Some _ = Some _ |- _ => injection H as <-
         end;
  try discriminate; try lia; try congruence; eauto 10.


(** ** More ways to read a trace *)

Definition is_seal (e : event) : bool :=
  match e with
  | EvSeal _ _ => true
  | _ => false
  end.

Definition is_diag (e : event) : bool :=
  match e with
  | EvDiag _ => true
  | _ => false
  end.

(** A library call that returned 0. *)
Definition is_failed_call (e : event) : bool :=
  match e with
  | EvInit false => true
  | EvSeal _ false => true
  | EvOpen _ false => true
  | _ => false
  end.

(** The library was handed the output buffer: only its seal and open take
    it. *)
Definition library_had_buffer (t : list event) : bool :=
  existsb (fun e => is_seal e || is_open e) t.

(** The trace begins with an initialisation that succeeded. *)
Definition starts_initialised (t : list event) : bool :=
  match t with
  | EvInit true :: _ => true
  | _ => false
  end.

(** ** The diagnostics routine and the library's error queue

    [handle_boringssl_errors] as [crypto.c] has it, lines 15 to 27: one
    [fprintf] with the context message, then a loop that takes error codes
    off the library's queue with [ERR_get_error] until that returns 0, turns
    each into text with [ERR_error_string_n] in a buffer of 256 bytes and
    prints it.  The queue is the library's ([<openssl/err.h>]): it enters as a
    state with its two operations.  [stderr] is the list of the strings
    written, one per [fprintf].  The loop runs on fuel, since it ends only
    when the library says the queue is empty. *)
Module Stderr.

Record ErrLibrary : Type := mk_ErrLibrary {
  ERR_STATE : Type;
  ERR_get_error : ERR_STATE -> Z * ERR_STATE;
  ERR_error_string_n : Z -> Z -> string
}.

Definition newline : string := String (Ascii.ascii_of_nat 10) EmptyString.

(** ["BoringSSL/OpenSSL Error in %s:\n"]. *)
Definition header (context_message : string) : string :=
  ("BoringSSL/OpenSSL Error in " ++ context_message ++ ":" ++ newline)%string.

(** ["- %s\n"] on what [ERR_error_string_n] left in [err_buf]. *)
Definition error_line (E : ErrLibrary) (err_code : Z) : string :=
  ("- " ++ ERR_error_string_n E err_code 256 ++ newline)%string.

Fixpoint error_loop (E : ErrLibrary) (fuel : nat) (q : ERR_STATE E)
  (err : list string) : option (ERR_STATE E * list string) :=
  match fuel with
  | O => None
  | S fuel' =>
      let (err_code, q') := ERR_get_error E q in
      if err_code =? 0 then Some (q', err)
      else error_loop E fuel' q' (err ++ [error_line E err_code])
  end.

Definition handle_boringssl_errors (E : ErrLibrary) (fuel : nat)
  (context_message : string) (q : ERR_STATE E) (err : list string)
  : option (ERR_STATE E * list string) :=
  error_loop E fuel q (err ++ [header context_message]).

(** The queue in state [q] holds the codes [codes], oldest first: taking
    them off one by one gives these, none of them 0, and then 0, which leaves
    the queue in state [q']. *)
Inductive queued (E : ErrLibrary)
  : ERR_STATE E -> list Z -> ERR_STATE E -> Prop :=
| queued_none (q q' : ERR_STATE E) :
    ERR_get_error E q = (0, q') -> queued E q [] q'
| queued_more (q q1 q' : ERR_STATE E) (c : Z) (cs : list Z) :
    ERR_get_error E q = (c, q1) -> c <> 0 -> queued E q1 cs q' ->
    queued E q (c :: cs) q'.

(** A queue to run the routine with: a list of codes, taken from the
    front. *)
Definition fifo : ErrLibrary :=
  mk_ErrLibrary (list Z)
    (fun q => match q with
              | [] => (0, [])
              | c :: rest => (c, rest)
              end)
    (fun err_code len =>
       if err_code =? 101 then "error:00000065"%string
       else "error:000000ca"%string).

End Stderr.

(** One of the four operations, by direction and algorithm. *)
Definition operation (enc : bool) (L : AeadLibrary) (a : algorithm)
  : ptr -> Z -> ptr -> ptr -> Z -> ptr -> Z -> ptr -> call_result :=
  if enc then encrypt L a else decrypt L a.

(** ** A rejection that clears the output buffer *)

(** [n] zero bytes written at [p].  When [p] addresses fewer than [n] bytes
    the write runs past the end of the object: the result is longer than the
    object was. *)
Definition clear (p : ptr) (n : Z) : ptr :=
  Some (repeat 0 (Z.to_nat n) ++ skipn (Z.to_nat n) (contents p)).

(** The number of bytes written past the end of the object at [before]. *)
Definition overrun (before after : ptr) : Z :=
  Z.of_nat (length (contents after)) - Z.of_nat (length (contents before)).

(** When its open fails the library clears the room it was told the output
    buffer has, [max_out_len] bytes, as BoringSSL's [EVP_AEAD_CTX_open]
    does. *)
Definition ClearsOnReject (L : AeadLibrary) : Prop :=
  forall ctx outp max_out_len nonce nonce_len inp in_len ad ad_len,
    ret_ok (EVP_AEAD_CTX_open L ctx outp max_out_len nonce nonce_len
              inp in_len ad ad_len) = false ->
    out_mem (EVP_AEAD_CTX_open L ctx outp max_out_len nonce nonce_len
               inp in_len ad ad_len)
    = clear outp max_out_len.

(** The parity AEAD with an open that clears on rejection. *)
Definition clearing_open (k : list byte) (outp : ptr) (max_out_len : Z)
  (nonce : ptr) (nonce_len : Z) (inp : ptr) (in_len : Z)
  (ad : ptr) (ad_len : Z) : aead_result :=
  let r := ParityAead.open k outp max_out_len nonce nonce_len inp in_len
             ad ad_len in
  if ret_ok r then r else mk_aead_result false 0 (clear outp max_out_len).

Definition clearing_library : AeadLibrary :=
  mk_AeadLibrary algorithm (list byte) AES_256_GCM CHACHA20_POLY1305
    (fun _ => 32) (fun _ => 16) boringssl_default_tag_length
    (ParityAead.init true) ParityAead.seal clearing_open.
Section Paths.

Variable L : AeadLibrary.

(** Every path of an encrypt, written out. *)
Lemma encrypt_paths (a : algorithm) (plaintext : ptr) (plaintext_len : Z)
  (key nonce : ptr) (nonce_len : Z) (aad : ptr) (aad_len : Z) (outp : ptr) :
  encrypt L a plaintext plaintext_len key nonce nonce_len aad aad_len outp =
  if misuse L a plaintext key nonce nonce_len outp
  then mk_call_result (-1) outp []
  else
    match context_for L a key with
    | None =>
        mk_call_result (-1) outp
          [EvInit false; EvDiag (init_message true a); EvCleanup]
    | Some ctx =>
        let r := seal_call L a ctx plaintext plaintext_len nonce nonce_len
                   aad aad_len outp in
        if ret_ok r
        then mk_call_result (to_int (out_len r)) (out_mem r)
               [EvInit true;
                EvSeal (size_t (plaintext_len
                                + EVP_AEAD_max_overhead L (aead_of L a))) true;
                EvCleanup]
        else mk_call_result (-1) (out_mem r)
               [EvInit true;
                EvSeal (size_t (plaintext_len
                                + EVP_AEAD_max_overhead L (aead_of L a))) false;
                EvDiag (step_message true a); EvCleanup]
    end.
Proof.
  unfold misuse, context_for, seal_call.
  destruct a; cbn [encrypt aead_of init_message step_message];
    [unfold encrypt_aes_gcm_256 | unfold encrypt_chacha20_poly1305];
    unfold run, mbind, mret, cleanup, CTX_cleanup, handle_boringssl_errors,
      emit, CTX_init, CTX_seal;
    destruct (is_null plaintext), (is_null key), (is_null nonce),
      (is_null outp); cbn [orb negb outbuf events app]; try reflexivity;
    destruct (EVP_AEAD_key_length L _ =? 32); cbn [orb negb]; try reflexivity;
    destruct (nonce_len =? 12); cbn [orb negb]; try reflexivity;
    destruct (EVP_AEAD_CTX_init L _ key _ _); cbn [outbuf events app];
      try reflexivity;
    destruct (ret_ok _); reflexivity.
Qed.

(** Every path of a decrypt, written out. *)
Lemma decrypt_paths (a : algorithm) (ciphertext_tag : ptr)
  (ciphertext_tag_len : Z) (key nonce : ptr) (nonce_len : Z)
  (aad : ptr) (aad_len : Z) (outp : ptr) :
  decrypt L a ciphertext_tag ciphertext_tag_len key nonce nonce_len
    aad aad_len outp =
  if misuse L a ciphertext_tag key nonce nonce_len outp
  then mk_call_result (-1) outp []
  else if below_guard L ciphertext_tag_len
  then mk_call_result (-2) outp []
  else
    match context_for L a key with
    | None =>
        mk_call_result (-1) outp
          [EvInit false; EvDiag (init_message false a); EvCleanup]
    | Some ctx =>
        let r := open_call L ctx ciphertext_tag ciphertext_tag_len
                   nonce nonce_len aad aad_len outp in
        if ret_ok r
        then mk_call_result (to_int (out_len r)) (out_mem r)
               [EvInit true; EvOpen ciphertext_tag_len true; EvCleanup]
        else mk_call_result (-2) (out_mem r)
               [EvInit true; EvOpen ciphertext_tag_len false;
                EvDiag (step_message false a); EvCleanup]
    end.
Proof.
  unfold misuse, below_guard, context_for, open_call.
  destruct a; cbn [decrypt aead_of init_message step_message];
    [unfold decrypt_aes_gcm_256 | unfold decrypt_chacha20_poly1305];
    unfold run, mbind, mret, cleanup, CTX_cleanup, handle_boringssl_errors,
      emit, CTX_init, CTX_open;
    destruct (is_null ciphertext_tag), (is_null key), (is_null nonce),
      (is_null outp); cbn [orb negb outbuf events app]; try reflexivity;
    destruct (EVP_AEAD_key_length L _ =? 32); cbn [orb negb]; try reflexivity;
    destruct (nonce_len =? 12); cbn [orb negb]; try reflexivity;
    destruct (ciphertext_tag_len <? _); try reflexivity;
    destruct (EVP_AEAD_CTX_init L _ key _ _); cbn [outbuf events app];
      try reflexivity;
    destruct (ret_ok _); reflexivity.
Qed.

End Paths.

(** * Argument validation *)

Section Validation.

Variable L : AeadLibrary.

Lemma misuse_of_bad_nonce_length (a : algorithm) (data key nonce : ptr)
  (nonce_len : Z) (outp : ptr) :
  nonce_len <> 12 -> misuse L a data key nonce nonce_len outp = true.
Proof.
  intros H. unfold misuse.
  apply Z.eqb_neq in H. rewrite H. cbn [negb].
  apply orb_true_r.
Qed.

Lemma misuse_of_null (a : algorithm) (data key nonce : ptr)
  (nonce_len : Z) (outp : ptr) :
  is_null data = true \/ is_null key = true \/ is_null nonce = true
  \/ is_null outp = true ->
  misuse L a data key nonce nonce_len outp = true.
Proof.
  unfold misuse.
  intros [H | [H | [H | H]]]; rewrite H;
    repeat (rewrite ?orb_true_r, ?orb_true_l); reflexivity.
Qed.

Lemma encrypt_misuse (a : algorithm) (plaintext : ptr) (plaintext_len : Z)
  (key nonce : ptr) (nonce_len : Z) (aad : ptr) (aad_len : Z) (outp : ptr) :
  misuse L a plaintext key nonce nonce_len outp = true ->
  encrypt L a plaintext plaintext_len key nonce nonce_len aad aad_len outp
  = mk_call_result (-1) outp [].
Proof. intros H. rewrite encrypt_paths, H. reflexivity. Qed.

Lemma decrypt_misuse (a : algorithm) (ciphertext_tag : ptr)
  (ciphertext_tag_len : Z) (key nonce : ptr) (nonce_len : Z)
  (aad : ptr) (aad_len : Z) (outp : ptr) :
  misuse L a ciphertext_tag key nonce nonce_len outp = true ->
  decrypt L a ciphertext_tag ciphertext_tag_len key nonce nonce_len
    aad aad_len outp
  = mk_call_result (-1) outp [].
Proof. intros H. rewrite decrypt_paths, H. reflexivity. Qed.

End Validation.

(** C5. A nonce length other than 12 makes each of the four operations
    return -1 (InvalidArgument) with no library call made and the output
    buffer as it was, whatever the other arguments are. *)
Theorem nonce_length_validation (L : AeadLibrary) (a : algorithm)
  (data : ptr) (data_len : Z) (key nonce : ptr) (nonce_len : Z)
  (aad : ptr) (aad_len : Z) (outp : ptr) :
  nonce_len <> 12 ->
  encrypt L a data data_len key nonce nonce_len aad aad_len outp
  = mk_call_result (-1) outp []
  /\ decrypt L a data data_len key nonce nonce_len aad aad_len outp
     = mk_call_result (-1) outp [].
Proof.
  intros H. split.
  - apply encrypt_misuse, misuse_of_bad_nonce_length, H.
  - apply decrypt_misuse, misuse_of_bad_nonce_length, H.
Qed.

(** C9. In a decrypt the pointer, key-length and nonce-length checks come
    before the short-input check: a call with a wrong nonce length or a NULL
    required pointer returns -1, not -2, also when the input is shorter than
    16 bytes. *)
Theorem validation_precedes_short_input_check (L : AeadLibrary)
  (a : algorithm) (ciphertext_tag : ptr) (ciphertext_tag_len : Z)
  (key nonce : ptr) (nonce_len : Z) (aad : ptr) (aad_len : Z) (outp : ptr) :
  nonce_len <> 12 \/ is_null ciphertext_tag = true \/ is_null key = true
  \/ is_null nonce = true \/ is_null outp = true ->
  ciphertext_tag_len < 16 ->
  status (decrypt L a ciphertext_tag ciphertext_tag_len key nonce nonce_len
            aad aad_len outp) = -1.
Proof.
  intros H _. rewrite decrypt_misuse; [reflexivity|].
  destruct H as [H | H].
  - apply misuse_of_bad_nonce_length, H.
  - apply misuse_of_null, H.
Qed.

(** * Error codes *)

(** C7. An encrypt whose context initialisation or seal step fails returns
    -1, the value an encrypt with invalid arguments returns: the two cannot
    be told apart by the return value. *)
Theorem encrypt_sentinel_collapse (L : AeadLibrary) (a : algorithm)
  (plaintext : ptr) (plaintext_len : Z) (key nonce : ptr) (nonce_len : Z)
  (aad : ptr) (aad_len : Z) (outp : ptr)
  (plaintext' : ptr) (plaintext_len' : Z) (key' nonce' : ptr)
  (nonce_len' : Z) (aad' : ptr) (aad_len' : Z) (outp' : ptr) :
  engine_failure L a plaintext plaintext_len key nonce nonce_len
    aad aad_len outp ->
  misuse L a plaintext' key' nonce' nonce_len' outp' = true ->
  status (encrypt L a plaintext plaintext_len key nonce nonce_len
            aad aad_len outp) = -1
  /\ status (encrypt L a plaintext' plaintext_len' key' nonce' nonce_len'
               aad' aad_len' outp') = -1.
Proof.
  intros [Hok Hfail] Hbad. split.
  - rewrite encrypt_paths, Hok.
    destruct (context_for L a key) as [ctx|]; [|reflexivity].
    cbv zeta. rewrite Hfail. reflexivity.
  - rewrite encrypt_misuse by exact Hbad. reflexivity.
Qed.

(** What a decrypt returns, path by path. *)
Lemma decrypt_status (L : AeadLibrary) (a : algorithm) (ciphertext_tag : ptr)
  (ciphertext_tag_len : Z) (key nonce : ptr) (nonce_len : Z)
  (aad : ptr) (aad_len : Z) (outp : ptr) :
  status (decrypt L a ciphertext_tag ciphertext_tag_len key nonce nonce_len
            aad aad_len outp) =
  if misuse L a ciphertext_tag key nonce nonce_len outp then -1
  else if below_guard L ciphertext_tag_len then -2
  else match context_for L a key with
       | None => -1
       | Some ctx =>
           let r := open_call L ctx ciphertext_tag ciphertext_tag_len
                      nonce nonce_len aad aad_len outp in
           if ret_ok r then to_int (out_len r) else -2
       end.
Proof.
  rewrite decrypt_paths.
  destruct (misuse _ _ _ _ _ _ _); [reflexivity|].
  destruct (below_guard _ _); [reflexivity|].
  destruct (context_for _ _ _); [|reflexivity].
  cbv zeta. destruct (ret_ok _); reflexivity.
Qed.

Lemma to_int_in_range (z : Z) : 0 <= z <= INT_MAX -> to_int z = z.
Proof.
  unfold to_int, INT_MAX. intros H.
  rewrite Z.mod_small by lia. lia.
Qed.

(** C6, as the code has it. A decrypt returns -1 when a required pointer is
    NULL, the algorithm's key length is not 32, the nonce length is not 12, or
    (the checks passed) the context initialisation fails; it returns -2 when
    the checks passed and either the length is below
    [EVP_AEAD_DEFAULT_TAG_LENGTH] or the library's open reports failure.
    These are the only causes as long as a successful open reports a length
    that fits an [int]. *)
Theorem decrypt_failure_taxonomy (L : AeadLibrary) (a : algorithm)
  (ciphertext_tag : ptr) (ciphertext_tag_len : Z) (key nonce : ptr)
  (nonce_len : Z) (aad : ptr) (aad_len : Z) (outp : ptr) :
  (forall ctx,
      context_for L a key = Some ctx ->
      ret_ok (open_call L ctx ciphertext_tag ciphertext_tag_len
                nonce nonce_len aad aad_len outp) = true ->
      0 <= out_len (open_call L ctx ciphertext_tag ciphertext_tag_len
                      nonce nonce_len aad aad_len outp) <= INT_MAX) ->
  let r := decrypt L a ciphertext_tag ciphertext_tag_len key nonce nonce_len
             aad aad_len outp in
  (status r = -1 <->
     misuse L a ciphertext_tag key nonce nonce_len outp = true
     \/ (misuse L a ciphertext_tag key nonce nonce_len outp = false
         /\ below_guard L ciphertext_tag_len = false
         /\ context_for L a key = None))
  /\
  (status r = -2 <->
     misuse L a ciphertext_tag key nonce nonce_len outp = false
     /\ (below_guard L ciphertext_tag_len = true
         \/ (below_guard L ciphertext_tag_len = false
             /\ exists ctx,
                 context_for L a key = Some ctx
                 /\ ret_ok (open_call L ctx ciphertext_tag ciphertext_tag_len
                              nonce nonce_len aad aad_len outp) = false))).
Proof.
  intros Hfit r. subst r. rewrite decrypt_status.
  destruct (misuse L a ciphertext_tag key nonce nonce_len outp);
    [settle_taxonomy|].
  destruct (below_guard L ciphertext_tag_len); [settle_taxonomy|].
  destruct (context_for L a key) as [ctx|] eqn:Hctx; [|settle_taxonomy].
  specialize (Hfit ctx eq_refl). cbv zeta.
  destruct (ret_ok _) eqn:Hret; [|settle_taxonomy].
  specialize (Hfit eq_refl). rewrite to_int_in_range by exact Hfit.
  settle_taxonomy.
Qed.

(** * The short-input check *)

(** X3. The check as the source means it: were [EVP_AEAD_DEFAULT_TAG_LENGTH]
    the tag length, 16, an input shorter than that would be turned away with -2
    before a context is initialised: no init, seal, open or cleanup and no
    diagnostic, the output buffer as it was.  (The getters [EVP_aead_...] and
    [EVP_AEAD_key_length] have been called by then; the trace does not record
    them.) *)
Lemma short_input_check_with_tag_length_16 (L : AeadLibrary) (a : algorithm)
  (ciphertext_tag : ptr) (ciphertext_tag_len : Z) (key nonce : ptr)
  (nonce_len : Z) (aad : ptr) (aad_len : Z) (outp : ptr) :
  EVP_AEAD_DEFAULT_TAG_LENGTH L = 16 ->
  misuse L a ciphertext_tag key nonce nonce_len outp = false ->
  ciphertext_tag_len < 16 ->
  decrypt L a ciphertext_tag ciphertext_tag_len key nonce nonce_len
    aad aad_len outp
  = mk_call_result (-2) outp [].
Proof.
  intros Hm Hok Hlen. rewrite decrypt_paths, Hok.
  unfold below_guard. rewrite Hm.
  replace (ciphertext_tag_len <? size_t 16) with true; [reflexivity|].
  symmetry. apply Z.ltb_lt. unfold size_t.
  rewrite Z.mod_small by lia. exact Hlen.
Qed.

(** With the header's value the comparison is [len < 0] on a [size_t]. *)
Lemma below_guard_boringssl (L : AeadLibrary) (ciphertext_tag_len : Z) :
  EVP_AEAD_DEFAULT_TAG_LENGTH L = boringssl_default_tag_length ->
  0 <= ciphertext_tag_len ->
  below_guard L ciphertext_tag_len = false.
Proof.
  intros Hm Hlen. unfold below_guard. rewrite Hm.
  apply Z.ltb_ge. exact Hlen.
Qed.

(** C4, at the header's value of [EVP_AEAD_DEFAULT_TAG_LENGTH]. A decrypt
    with valid pointers, a 12-byte nonce and fewer than 16 bytes of input is
    not turned away by the short-input check: a context is initialised and,
    when that succeeds, the library's open is called on the short input. *)
Theorem short_input_reaches_library (L : AeadLibrary) (a : algorithm)
  (ciphertext_tag : ptr) (ciphertext_tag_len : Z) (key nonce : ptr)
  (nonce_len : Z) (aad : ptr) (aad_len : Z) (outp : ptr) :
  EVP_AEAD_DEFAULT_TAG_LENGTH L = boringssl_default_tag_length ->
  misuse L a ciphertext_tag key nonce nonce_len outp = false ->
  0 <= ciphertext_tag_len < 16 ->
  let r := decrypt L a ciphertext_tag ciphertext_tag_len key nonce nonce_len
             aad aad_len outp in
  reaches_init r = true
  /\ existsb is_open (trace r)
     = match context_for L a key with Some _ => true | None => false end.
Proof.
  intros Hm Hok Hlen r. subst r.
  rewrite decrypt_paths, Hok, (below_guard_boringssl L _ Hm) by lia.
  destruct (context_for L a key); [|split; reflexivity].
  cbv zeta. destruct (ret_ok _); split; reflexivity.
Qed.

(** * Context release *)

(** C8. In each of the four operations the context is released exactly once
    on every path that attempts its initialisation (success, seal or open
    failure, initialisation failure), the release is the last thing the call
    does, and a call initialises at most one context. *)
Theorem context_released_on_every_path (L : AeadLibrary) (a : algorithm)
  (data : ptr) (data_len : Z) (key nonce : ptr) (nonce_len : Z)
  (aad : ptr) (aad_len : Z) (outp : ptr) :
  released_exactly_once
    (trace (encrypt L a data data_len key nonce nonce_len aad aad_len outp))
  = true
  /\ released_exactly_once
       (trace (decrypt L a data data_len key nonce nonce_len aad aad_len outp))
     = true.
Proof.
  split.
  - rewrite encrypt_paths.
    destruct (misuse _ _ _ _ _ _ _); [reflexivity|].
    destruct (context_for _ _ _); [|reflexivity].
    cbv zeta. destruct (ret_ok _); reflexivity.
  - rewrite decrypt_paths.
    destruct (misuse _ _ _ _ _ _ _); [reflexivity|].
    destruct (below_guard _ _); [reflexivity|].
    destruct (context_for _ _ _); [|reflexivity].
    cbv zeta. destruct (ret_ok _); reflexivity.
Qed.

(** * The AAD pointer *)

(** C10. No check looks at [aad] or [aad_len]: with the other arguments in
    order, a call with a NULL [aad] goes on to initialise a context whatever
    [aad_len] is (for a decrypt, unless the short-input check fires).  With
    [aad_len = 0], and a library that then leaves [ad] alone, the outcome is
    the same for a NULL and for any other [aad]. *)
Theorem aad_pointer_not_validated (L : AeadLibrary) (a : algorithm)
  (data : ptr) (data_len : Z) (key nonce : ptr) (nonce_len : Z)
  (aad : ptr) (aad_len : Z) (outp : ptr) :
  EmptyAdUnread L ->
  misuse L a data key nonce nonce_len outp = false ->
  reaches_init
    (encrypt L a data data_len key nonce nonce_len None aad_len outp) = true
  /\ reaches_init
       (decrypt L a data data_len key nonce nonce_len None aad_len outp)
     = negb (below_guard L data_len)
  /\ encrypt L a data data_len key nonce nonce_len None 0 outp
     = encrypt L a data data_len key nonce nonce_len aad 0 outp
  /\ decrypt L a data data_len key nonce nonce_len None 0 outp
     = decrypt L a data data_len key nonce nonce_len aad 0 outp.
Proof.
  intros Had Hok. repeat split.
  - rewrite encrypt_paths, Hok.
    destruct (context_for _ _ _); [|reflexivity].
    cbv zeta. destruct (ret_ok _); reflexivity.
  - rewrite decrypt_paths, Hok.
    destruct (below_guard _ _); [reflexivity|].
    destruct (context_for _ _ _); [|reflexivity].
    cbv zeta. destruct (ret_ok _); reflexivity.
  - rewrite !encrypt_paths.
    destruct (misuse _ _ _ _ _ _ _); [reflexivity|].
    destruct (context_for _ _ _) as [ctx|]; [|reflexivity].
    unfold seal_call.
    rewrite (proj1 (Had ctx outp _ nonce nonce_len data data_len None aad)).
    reflexivity.
  - rewrite !decrypt_paths.
    destruct (misuse _ _ _ _ _ _ _); [reflexivity|].
    destruct (below_guard _ _); [reflexivity|].
    destruct (context_for _ _ _) as [ctx|]; [|reflexivity].
    unfold open_call.
    rewrite (proj2 (Had ctx outp _ nonce nonce_len data data_len None aad)).
    reflexivity.
Qed.

(** * The room announced to the library *)

(** X4. A decrypt that gets as far as the open tells the library that the
    output buffer has room for [ciphertext_tag_len] bytes.  For a buffer of
    the size the function's documentation asks for, [ciphertext_tag_len - 16]
    bytes, that is 16 bytes more than the buffer has. *)
Theorem decrypt_announces_input_length_as_room (L : AeadLibrary)
  (a : algorithm) (ciphertext_tag : ptr) (ciphertext_tag_len : Z)
  (key nonce : ptr) (nonce_len : Z) (aad : ptr) (aad_len : Z) (outp : ptr)
  (ctx : EVP_AEAD_CTX L) :
  misuse L a ciphertext_tag key nonce nonce_len outp = false ->
  below_guard L ciphertext_tag_len = false ->
  context_for L a key = Some ctx ->
  Z.of_nat (length (contents outp)) = ciphertext_tag_len - 16 ->
  nth_error
    (trace (decrypt L a ciphertext_tag ciphertext_tag_len key nonce nonce_len
              aad aad_len outp)) 1
  = Some (EvOpen (Z.of_nat (length (contents outp)) + 16)
            (ret_ok (open_call L ctx ciphertext_tag ciphertext_tag_len
                       nonce nonce_len aad aad_len outp))).
Proof.
  intros Hok Hg Hctx Hcap.
  rewrite decrypt_paths, Hok, Hg, Hctx. cbv zeta.
  replace (Z.of_nat (length (contents outp)) + 16) with ciphertext_tag_len
    by lia.
  destruct (ret_ok _); reflexivity.
Qed.

(** * Buffers *)

Lemma length_region (p : ptr) (n : Z) :
  readable p n -> length (region p n) = Z.to_nat n.
Proof.
  unfold readable, region. intros H.
  rewrite length_firstn. lia.
Qed.

Lemma region_app_exact (bs rest : list byte) :
  firstn (length bs) (bs ++ rest) = bs.
Proof.
  rewrite firstn_app, Nat.sub_diag, firstn_all. cbn. apply app_nil_r.
Qed.

Lemma region_store (p : ptr) (bs : list byte) (n : Z) :
  n = Z.of_nat (length bs) -> region (store p bs) n = bs.
Proof.
  intros ->. unfold region, store. cbn [contents].
  rewrite Nat2Z.id. apply region_app_exact.
Qed.

Lemma length_store (p : ptr) (bs : list byte) :
  (length bs <= length (contents p))%nat ->
  length (contents (store p bs)) = length (contents p).
Proof.
  intros H. unfold store. cbn [contents].
  rewrite length_app, length_skipn. lia.
Qed.

Lemma valid_store (p : ptr) (bs : list byte) (n : Z) :
  valid p n -> n = Z.of_nat (length bs) -> valid (store p bs) n.
Proof.
  intros [_ H] ->. split; [reflexivity|].
  unfold readable in *. rewrite length_store; lia.
Qed.

Lemma valid_zeros (n m : Z) : 0 <= m <= n -> valid (zeros n) m.
Proof.
  intros H. split; [reflexivity|].
  unfold readable, zeros. cbn [contents].
  rewrite repeat_length. lia.
Qed.

(** * Inverted bits *)

Lemma length_flip_bit (bs : list byte) (i : nat) (j : Z) :
  length (flip_bit bs i j) = length bs.
Proof.
  revert i. induction bs as [|b rest IH]; intros [|i]; cbn; auto.
Qed.

Lemma firstn_flip_bit (n : nat) (bs : list byte) (i : nat) (j : Z) :
  firstn n (flip_bit bs i j) = flip_bit (firstn n bs) i j.
Proof.
  revert n i. induction bs as [|b rest IH]; intros [|n] [|i]; cbn;
    try reflexivity.
  f_equal. apply IH.
Qed.

Lemma flip_bit_app_l (l1 l2 : list byte) (i : nat) (j : Z) :
  (i < length l1)%nat -> flip_bit (l1 ++ l2) i j = flip_bit l1 i j ++ l2.
Proof.
  revert i. induction l1 as [|b rest IH]; intros [|i] H; cbn in *;
    try lia; try reflexivity.
  f_equal. apply IH. lia.
Qed.

Lemma flip_bit_app_r (l1 l2 : list byte) (i : nat) (j : Z) :
  flip_bit (l1 ++ l2) (length l1 + i) j = l1 ++ flip_bit l2 i j.
Proof.
  induction l1 as [|b rest IH]; cbn; [reflexivity|].
  f_equal. exact IH.
Qed.

Lemma lxor_pow2_neq (x j : Z) : 0 <= j -> Z.lxor x (2 ^ j) <> x.
Proof.
  intros Hj H.
  assert (E : Z.lxor x (Z.lxor x (2 ^ j)) = 2 ^ j).
  { rewrite <- Z.lxor_assoc, Z.lxor_nilpotent. apply Z.lxor_0_l. }
  rewrite H, Z.lxor_nilpotent in E.
  pose proof (Z.pow_pos_nonneg 2 j). lia.
Qed.

Lemma flip_bit_neq (bs : list byte) (i : nat) (j : Z) :
  (i < length bs)%nat -> 0 <= j -> flip_bit bs i j <> bs.
Proof.
  revert i. induction bs as [|b rest IH]; intros [|i] Hi Hj H; cbn in *;
    try lia.
  - injection H as H. exact (lxor_pow2_neq b j Hj H).
  - injection H as H. apply (IH i); [lia | exact Hj | exact H].
Qed.

Lemma is_null_flip (p : ptr) (i : nat) (j : Z) :
  is_null (flip p i j) = is_null p.
Proof. destruct p; reflexivity. Qed.

Lemma contents_flip (p : ptr) (i : nat) (j : Z) :
  contents (flip p i j) = flip_bit (contents p) i j.
Proof. destruct p; reflexivity. Qed.

Lemma region_flip (p : ptr) (n : Z) (i : nat) (j : Z) :
  region (flip p i j) n = flip_bit (region p n) i j.
Proof. unfold region. rewrite contents_flip. apply firstn_flip_bit. Qed.

Lemma valid_flip (p : ptr) (n : Z) (i : nat) (j : Z) :
  valid p n -> valid (flip p i j) n.
Proof.
  unfold valid, readable. rewrite is_null_flip, contents_flip, length_flip_bit.
  auto.
Qed.

(** * The parity AEAD meets what the wrappers expect *)

Section ParityFacts.

Import ParityAead.

Lemma lxor_swap_r (a m c : Z) :
  Z.lxor (Z.lxor a m) c = Z.lxor (Z.lxor a c) m.
Proof. rewrite !Z.lxor_assoc. f_equal. apply Z.lxor_comm. Qed.

Lemma xor_all_app (x y : list byte) :
  xor_all (x ++ y) = Z.lxor (xor_all x) (xor_all y).
Proof.
  induction x as [|b rest IH]; cbn.
  - reflexivity.
  - fold (xor_all (rest ++ y)). fold (xor_all rest).
    rewrite IH. symmetry. apply Z.lxor_assoc.
Qed.

Lemma xor_all_flip (bs : list byte) (i : nat) (j : Z) :
  (i < length bs)%nat ->
  xor_all (flip_bit bs i j) = Z.lxor (xor_all bs) (2 ^ j).
Proof.
  revert i. induction bs as [|b rest IH]; intros [|i] H; cbn in *; try lia.
  - fold (xor_all rest). apply lxor_swap_r.
  - fold (xor_all (flip_bit rest i j)). fold (xor_all rest).
    rewrite IH by lia. symmetry. apply Z.lxor_assoc.
Qed.

Lemma map_pad_twice (c : byte) (bs : list byte) :
  map (Z.lxor c) (map (Z.lxor c) bs) = bs.
Proof.
  induction bs as [|b rest IH]; cbn; [reflexivity|].
  rewrite IH, <- Z.lxor_assoc, Z.lxor_nilpotent, Z.lxor_0_l. reflexivity.
Qed.

Lemma bytes_eqb_refl (x : list byte) : bytes_eqb x x = true.
Proof. unfold bytes_eqb. destruct (list_eq_dec Z.eq_dec x x); congruence. Qed.

Lemma bytes_eqb_neq (x y : list byte) : x <> y -> bytes_eqb x y = false.
Proof. unfold bytes_eqb. destruct (list_eq_dec Z.eq_dec x y); congruence. Qed.

(** One inverted bit in any of the four inputs changes the tag. *)
Lemma tag_flip_key (k nb ab ct : list byte) (i : nat) (j : Z) :
  (i < length k)%nat -> 0 <= j ->
  tag (flip_bit k i j) nb ab ct <> tag k nb ab ct.
Proof.
  intros Hi Hj H. unfold tag in H. injection H as H.
  rewrite !xor_all_app, xor_all_flip in H by exact Hi.
  rewrite lxor_swap_r in H.
  exact (lxor_pow2_neq _ j Hj H).
Qed.

Lemma tag_flip_nonce (k nb ab ct : list byte) (i : nat) (j : Z) :
  (i < length nb)%nat -> 0 <= j ->
  tag k (flip_bit nb i j) ab ct <> tag k nb ab ct.
Proof.
  intros Hi Hj H. unfold tag in H. injection H as H.
  rewrite !xor_all_app, xor_all_flip in H by exact Hi.
  rewrite (lxor_swap_r (xor_all nb)), <- (Z.lxor_assoc (xor_all k)) in H.
  exact (lxor_pow2_neq _ j Hj H).
Qed.

Lemma tag_flip_aad (k nb ab ct : list byte) (i : nat) (j : Z) :
  (i < length ab)%nat -> 0 <= j ->
  tag k nb (flip_bit ab i j) ct <> tag k nb ab ct.
Proof.
  intros Hi Hj H. unfold tag in H. injection H as H.
  rewrite !xor_all_app, xor_all_flip in H by exact Hi.
  rewrite (lxor_swap_r (xor_all ab)), <- (Z.lxor_assoc (xor_all nb)),
    <- (Z.lxor_assoc (xor_all k)) in H.
  exact (lxor_pow2_neq _ j Hj H).
Qed.

Lemma tag_flip_ciphertext (k nb ab ct : list byte) (i : nat) (j : Z) :
  (i < length ct)%nat -> 0 <= j ->
  tag k nb ab (flip_bit ct i j) <> tag k nb ab ct.
Proof.
  intros Hi Hj H. unfold tag in H. injection H as H.
  rewrite !xor_all_app, xor_all_flip in H by exact Hi.
  rewrite <- (Z.lxor_assoc (xor_all ab)), <- (Z.lxor_assoc (xor_all nb)),
    <- (Z.lxor_assoc (xor_all k)) in H.
  exact (lxor_pow2_neq _ j Hj H).
Qed.

Lemma length_tag (k nb ab ct : list byte) : length (tag k nb ab ct) = 16%nat.
Proof. reflexivity. Qed.

End ParityFacts.

Section ParityContract.

Import ParityAead.

Variable tag_macro : Z.
Variable healthy : bool.

Let PL : AeadLibrary := library tag_macro healthy.

Lemma parity_context (a : algorithm) (key : ptr) :
  context_for PL a key =
  if healthy && negb (is_null key) then Some (region key 32) else None.
Proof.
  unfold context_for. cbn. unfold init.
  rewrite Z.eqb_refl, andb_true_r. reflexivity.
Qed.

Lemma length_ciphertext (k nb pb : list byte) :
  length (ciphertext k nb pb) = length pb.
Proof. apply length_map. Qed.

Lemma length_sealed (k nb ab pb : list byte) :
  length (sealed k nb ab pb) = (length pb + 16)%nat.
Proof.
  unfold sealed. rewrite length_app, length_ciphertext. reflexivity.
Qed.

Lemma ciphertext_twice (k nb pb : list byte) :
  ciphertext k nb (ciphertext k nb pb) = pb.
Proof. apply map_pad_twice. Qed.

(** The ciphertext and the tag are found again in what was sealed. *)
Lemma split_sealed (c t : list byte) :
  length t = 16%nat ->
  (length (c ++ t) - 16)%nat = length c
  /\ firstn (length c) (c ++ t) = c
  /\ skipn (length c) (c ++ t) = t.
Proof.
  intros Ht. rewrite length_app, Ht. repeat split.
  - lia.
  - apply region_app_exact.
  - rewrite skipn_app, Nat.sub_diag, skipn_all. reflexivity.
Qed.

Lemma region_store_sealed (k nb ab pb : list byte) (outp : ptr) (n : Z) :
  n = Z.of_nat (length pb) + 16 ->
  region (store outp (sealed k nb ab pb)) n =
  ciphertext k nb pb ++ tag k nb ab (ciphertext k nb pb).
Proof.
  intros ->. change (ciphertext k nb pb ++ tag k nb ab (ciphertext k nb pb))
    with (sealed k nb ab pb).
  apply region_store. rewrite length_sealed. lia.
Qed.

Lemma parity_seal_call (a : algorithm) (k : list byte)
  (plaintext : ptr) (plaintext_len : Z) (key nonce aad : ptr) (aad_len : Z)
  (outp : ptr) :
  encrypt_call_ok plaintext plaintext_len key nonce aad aad_len outp ->
  seal_call PL a k plaintext plaintext_len nonce 12 aad aad_len outp =
  mk_aead_result true (plaintext_len + 16)
    (store outp (sealed k (region nonce 12) (region aad aad_len)
                   (region plaintext plaintext_len))).
Proof.
  intros [[_ Hp] _ _ _ _ Hsize].
  unfold seal_call. cbn. unfold seal.
  assert (Hlen : Z.of_nat (length (sealed k (region nonce 12)
                   (region aad aad_len) (region plaintext plaintext_len)))
                 = plaintext_len + 16).
  { rewrite length_sealed, (length_region _ _ Hp).
    unfold readable in Hp. lia. }
  rewrite Hlen.
  replace (size_t (plaintext_len + 16)) with (plaintext_len + 16).
  - rewrite Z.ltb_irrefl. reflexivity.
  - unfold size_t. unfold readable in Hp. rewrite Z.mod_small; lia.
Qed.

Lemma parity_open_accept (k : list byte) (outp2 : ptr) (max_out_len : Z)
  (nonce inp ad : ptr) (in_len ad_len : Z) (c : list byte) :
  region inp in_len = c ++ tag k (region nonce 12) (region ad ad_len) c ->
  16 <= in_len -> Z.of_nat (length c) <= max_out_len ->
  EVP_AEAD_CTX_open PL k outp2 max_out_len nonce 12 inp in_len ad ad_len =
  mk_aead_result true (Z.of_nat (length c))
    (store outp2 (ciphertext k (region nonce 12) c)).
Proof.
  intros Hcb Hlen Hmax. cbn. unfold open. rewrite Hcb. cbv zeta.
  destruct (split_sealed c (tag k (region nonce 12) (region ad ad_len) c)
              eq_refl) as (-> & -> & ->).
  rewrite bytes_eqb_refl.
  rewrite (proj2 (Z.leb_le _ _) Hlen), (proj2 (Z.leb_le _ _) Hmax).
  reflexivity.
Qed.

Lemma parity_open_reject (k : list byte) (outp2 : ptr) (max_out_len : Z)
  (nonce inp ad : ptr) (in_len ad_len : Z) (c t : list byte) :
  region inp in_len = c ++ t -> length t = 16%nat ->
  t <> tag k (region nonce 12) (region ad ad_len) c ->
  EVP_AEAD_CTX_open PL k outp2 max_out_len nonce 12 inp in_len ad ad_len =
  mk_aead_result false 0 outp2.
Proof.
  intros Hcb Ht Hneq. cbn. unfold open. rewrite Hcb. cbv zeta.
  destruct (split_sealed c t Ht) as (-> & -> & ->).
  rewrite (bytes_eqb_neq _ _ Hneq), andb_false_r. reflexivity.
Qed.

Lemma parity_empty_ad : EmptyAdUnread PL.
Proof. intros ctx outp max_out_len nonce nonce_len inp in_len ad ad'. split; reflexivity. Qed.

Lemma rejected (x : aead_result) (outp2 : ptr) (n : Z) :
  x = mk_aead_result false 0 outp2 ->
  ret_ok x = false /\ out_mem x = untouched outp2 n.
Proof. intros ->. split; reflexivity. Qed.

Lemma parity_authentic (a : algorithm) : AeadAuthentic PL a untouched.
Proof.
  intros plaintext plaintext_len key nonce aad aad_len outp ctx Hok Hctx r _
    t i j ctx' outp2 m Hin m' Hctx' r'.
  subst r'. subst m'. subst m. subst r.
  rewrite (parity_seal_call a ctx _ _ _ _ _ _ _ Hok) in *.
  cbn [out_mem] in *.
  rewrite parity_context in Hctx.
  destruct Hok as [[_ Hp] [Hk0 Hk] [Hn0 Hn] Ha [Ho0 Ho] Hsize].
  assert (Hh : healthy = true).
  { destruct healthy; [reflexivity | discriminate Hctx]. }
  rewrite Hh, Hk0 in Hctx. injection Hctx as <-.
  set (k := region key 32) in *. set (nb := region nonce 12) in *.
  set (ab := region aad aad_len) in *.
  set (pb := region plaintext plaintext_len) in *.
  set (c := ciphertext k nb pb).
  assert (Hlc : length c = Z.to_nat plaintext_len).
  { subst c pb. rewrite length_ciphertext. apply length_region, Hp. }
  assert (Hs : region (store outp (sealed k nb ab pb)) (plaintext_len + 16)
               = c ++ tag k nb ab c).
  { apply region_store_sealed. subst pb.
    rewrite (length_region _ _ Hp). unfold readable in Hp. lia. }
  destruct Hin as [Hj Hi].
  destruct t; cbn [tamper m_sealed m_len m_key m_nonce m_aad m_aad_len] in *.
  - (* ciphertext *)
    rewrite parity_context, Hh, Hk0 in Hctx'. injection Hctx' as <-.
    apply rejected. unfold open_call.
    apply parity_open_reject with (c := flip_bit c i j) (t := tag k nb ab c).
    + rewrite region_flip, Hs. apply flip_bit_app_l.
      unfold readable in Hp. lia.
    + reflexivity.
    + intros H. apply (tag_flip_ciphertext k nb ab c i j); [|lia|].
      * unfold readable in Hp. lia.
      * symmetry. exact H.
  - (* tag *)
    rewrite parity_context, Hh, Hk0 in Hctx'. injection Hctx' as <-.
    apply rejected. unfold open_call.
    apply parity_open_reject with (c := c) (t := flip_bit (tag k nb ab c) i j).
    + rewrite region_flip, Hs.
      replace (Z.to_nat (plaintext_len + 16 - 16)) with (length c)
        by (rewrite Hlc; f_equal; lia).
      apply flip_bit_app_r.
    + rewrite length_flip_bit. reflexivity.
    + apply flip_bit_neq; [|lia]. rewrite length_tag. lia.
  - (* nonce *)
    rewrite parity_context, Hh, Hk0 in Hctx'. injection Hctx' as <-.
    apply rejected. unfold open_call.
    apply parity_open_reject with (c := c) (t := tag k nb ab c).
    + exact Hs.
    + reflexivity.
    + rewrite region_flip. fold nb.
      intros H. apply (tag_flip_nonce k nb ab c i j); [|lia|].
      * subst nb. rewrite (length_region _ _ Hn). lia.
      * symmetry. exact H.
  - (* key *)
    rewrite parity_context, Hh, is_null_flip, Hk0 in Hctx'.
    injection Hctx' as <-.
    apply rejected. unfold open_call.
    apply parity_open_reject with (c := c) (t := tag k nb ab c).
    + exact Hs.
    + reflexivity.
    + rewrite region_flip. fold k. fold nb. fold ab.
      intros H. apply (tag_flip_key k nb ab c i j); [|lia|].
      * subst k. rewrite (length_region _ _ Hk). lia.
      * symmetry. exact H.
  - (* aad *)
    rewrite parity_context, Hh, Hk0 in Hctx'. injection Hctx' as <-.
    apply rejected. unfold open_call.
    apply parity_open_reject with (c := c) (t := tag k nb ab c).
    + exact Hs.
    + reflexivity.
    + rewrite region_flip. fold ab. fold nb.
      intros H. apply (tag_flip_aad k nb ab c i j); [|lia|].
      * subst ab. rewrite (length_region _ _ Ha). lia.
      * symmetry. exact H.
Qed.

End ParityContract.

Lemma parity_sound (tag_macro : Z) (a : algorithm) (limit : Z) :
  size_t tag_macro <= 16 ->
  AeadSound (ParityAead.library tag_macro true) a limit.
Proof.
  intros Hm. constructor.
  - reflexivity.
  - reflexivity.
  - exact Hm.
  - intros key [Hk0 _]. rewrite parity_context. cbn. rewrite Hk0. discriminate.
  - intros plaintext plaintext_len key nonce aad aad_len outp ctx Hok _ _ r.
    subst r. rewrite (parity_seal_call _ _ a ctx _ _ _ _ _ _ _ Hok).
    cbn [ret_ok out_len out_mem].
    split; [reflexivity|]. split; [reflexivity|].
    destruct Hok as [[_ Hp] _ _ _ Ho _].
    apply valid_store; [exact Ho|].
    rewrite length_sealed, (length_region _ _ Hp). unfold readable in Hp. lia.
  - intros plaintext plaintext_len key nonce aad aad_len outp ctx outp2
      Hok _ _ Ho2.
    rewrite (parity_seal_call _ _ a ctx _ _ _ _ _ _ _ Hok).
    cbn [out_mem]. unfold open_call.
    destruct Hok as [[_ Hp] _ _ _ _ _].
    assert (Hlen : Z.of_nat (length (ParityAead.ciphertext ctx (region nonce 12)
                     (region plaintext plaintext_len))) = plaintext_len).
    { rewrite length_ciphertext, (length_region _ _ Hp).
      unfold readable in Hp. lia. }
    rewrite (parity_open_accept tag_macro true ctx outp2 _ nonce _ aad _ _
               (ParityAead.ciphertext ctx (region nonce 12)
                  (region plaintext plaintext_len))).
    + rewrite Hlen, ciphertext_twice. reflexivity.
    + apply region_store_sealed. rewrite (length_region _ _ Hp).
      unfold readable in Hp. lia.
    + unfold readable in Hp. lia.
    + lia.
Qed.

(** * Calls into a library that works *)

Section Sound.

Variable L : AeadLibrary.
Variable a : algorithm.
Variable limit : Z.
Hypothesis HS : AeadSound L a limit.

Variables plaintext key nonce aad outp : ptr.
Variables plaintext_len aad_len : Z.
Hypothesis Hok :
  encrypt_call_ok plaintext plaintext_len key nonce aad aad_len outp.
Hypothesis Hlimit : plaintext_len <= limit.

Lemma call_ok_not_misuse :
  misuse L a plaintext key nonce 12 outp = false.
Proof.
  destruct Hok as [[Hp _] [Hk _] [Hn _] _ [Ho _] _].
  unfold misuse. rewrite Hp, Hk, Hn, Ho, (sound_key_length _ _ _ HS).
  reflexivity.
Qed.

Lemma call_ok_context : exists ctx, context_for L a key = Some ctx.
Proof.
  pose proof (sound_init _ _ _ HS key (ok_key _ _ _ _ _ _ _ Hok)) as H.
  destruct (context_for L a key) as [ctx|]; [eauto | congruence].
Qed.

Lemma encrypt_sound (ctx : EVP_AEAD_CTX L) :
  context_for L a key = Some ctx ->
  encrypt L a plaintext plaintext_len key nonce 12 aad aad_len outp =
  mk_call_result (to_int (plaintext_len + 16))
    (out_mem (seal_call L a ctx plaintext plaintext_len nonce 12
                aad aad_len outp))
    [EvInit true; EvSeal (plaintext_len + 16) true; EvCleanup].
Proof.
  intros Hctx.
  destruct (sound_seal _ _ _ HS _ _ _ _ _ _ _ ctx Hok Hlimit Hctx)
    as (Hret & Hlen & _).
  rewrite encrypt_paths, call_ok_not_misuse, Hctx. cbv zeta.
  rewrite Hret, Hlen, (sound_overhead _ _ _ HS).
  replace (size_t (plaintext_len + 16)) with (plaintext_len + 16);
    [reflexivity|].
  destruct Hok as [[_ Hp] _ _ _ _ Hsize]. unfold readable in Hp.
  unfold size_t. rewrite Z.mod_small; lia.
Qed.

Lemma sealed_not_misuse (ctx : EVP_AEAD_CTX L) (key' nonce' outp2 : ptr) :
  context_for L a key = Some ctx ->
  is_null key' = false -> is_null nonce' = false -> is_null outp2 = false ->
  misuse L a
    (out_mem (seal_call L a ctx plaintext plaintext_len nonce 12
                aad aad_len outp))
    key' nonce' 12 outp2 = false.
Proof.
  intros Hctx Hk Hn Ho.
  destruct (sound_seal _ _ _ HS _ _ _ _ _ _ _ ctx Hok Hlimit Hctx)
    as (_ & _ & [Hs _]).
  unfold misuse. rewrite Hs, Hk, Hn, Ho, (sound_key_length _ _ _ HS).
  reflexivity.
Qed.

Lemma sealed_above_guard : below_guard L (plaintext_len + 16) = false.
Proof.
  unfold below_guard. apply Z.ltb_ge.
  pose proof (sound_default_tag _ _ _ HS).
  destruct Hok as [[_ Hp] _ _ _ _ _]. unfold readable in Hp. lia.
Qed.

Lemma decrypt_sound (ctx : EVP_AEAD_CTX L) (outp2 : ptr) :
  context_for L a key = Some ctx ->
  valid outp2 plaintext_len ->
  decrypt L a
    (out_mem (seal_call L a ctx plaintext plaintext_len nonce 12
                aad aad_len outp))
    (plaintext_len + 16) key nonce 12 aad aad_len outp2 =
  mk_call_result (to_int plaintext_len)
    (store outp2 (region plaintext plaintext_len))
    [EvInit true; EvOpen (plaintext_len + 16) true; EvCleanup].
Proof.
  intros Hctx Ho2.
  rewrite decrypt_paths, sealed_above_guard, Hctx.
  rewrite (sealed_not_misuse ctx key nonce outp2 Hctx).
  - cbv zeta.
    rewrite (sound_open _ _ _ HS _ _ _ _ _ _ _ ctx outp2 Hok Hlimit Hctx Ho2).
    reflexivity.
  - apply Hok.
  - apply Hok.
  - apply Ho2.
Qed.

Lemma stored_plaintext (outp2 : ptr) :
  region (store outp2 (region plaintext plaintext_len)) plaintext_len =
  region plaintext plaintext_len.
Proof.
  apply region_store.
  destruct Hok as [[_ Hp] _ _ _ _ _].
  rewrite (length_region _ _ Hp). unfold readable in Hp. lia.
Qed.

End Sound.

(** X2. Length law where the lengths fit an [int]: with a working library an
    encrypt of [n] bytes returns [n + 16], and the decrypt of its output
    returns [n]. *)
Theorem length_law_within_int (L : AeadLibrary) (a : algorithm) (limit : Z)
  (plaintext key nonce aad outp outp2 : ptr) (plaintext_len aad_len : Z) :
  AeadSound L a limit ->
  encrypt_call_ok plaintext plaintext_len key nonce aad aad_len outp ->
  plaintext_len <= limit ->
  plaintext_len + 16 <= INT_MAX ->
  valid outp2 plaintext_len ->
  let e := encrypt L a plaintext plaintext_len key nonce 12 aad aad_len outp in
  let d := decrypt L a (out e) (status e) key nonce 12 aad aad_len outp2 in
  status e = plaintext_len + 16 /\ status d = status e - 16.
Proof.
  intros HS Hok Hlimit Hint Ho2 e d.
  destruct (call_ok_context L a limit HS _ _ _ _ _ _ _ Hok) as [ctx Hctx].
  assert (Hp : 0 <= plaintext_len).
  { destruct Hok as [[_ Hp] _ _ _ _ _]. unfold readable in Hp. lia. }
  assert (He : e = mk_call_result (plaintext_len + 16)
                     (out_mem (seal_call L a ctx plaintext plaintext_len
                                 nonce 12 aad aad_len outp))
                     [EvInit true; EvSeal (plaintext_len + 16) true;
                      EvCleanup]).
  { subst e. rewrite (encrypt_sound L a limit HS _ _ _ _ _ _ _ Hok Hlimit ctx Hctx).
    rewrite to_int_in_range by (unfold INT_MAX in *; lia). reflexivity. }
  subst d. rewrite He. cbn [status out]. split; [reflexivity|].
  rewrite (decrypt_sound L a limit HS _ _ _ _ _ _ _ Hok Hlimit ctx outp2 Hctx Ho2).
  cbn [status]. rewrite to_int_in_range by (unfold INT_MAX in *; lia). lia.
Qed.

(** X1. Round trip where the lengths fit an [int]: with a working library,
    decrypting what an encrypt produced, under the same key, nonce and AAD,
    succeeds and leaves the plaintext in the output buffer. *)
Theorem round_trip_within_int (L : AeadLibrary) (a : algorithm) (limit : Z)
  (plaintext key nonce aad outp outp2 : ptr) (plaintext_len aad_len : Z) :
  AeadSound L a limit ->
  encrypt_call_ok plaintext plaintext_len key nonce aad aad_len outp ->
  plaintext_len <= limit ->
  plaintext_len + 16 <= INT_MAX ->
  valid outp2 plaintext_len ->
  let e := encrypt L a plaintext plaintext_len key nonce 12 aad aad_len outp in
  let d := decrypt L a (out e) (status e) key nonce 12 aad aad_len outp2 in
  status d = plaintext_len
  /\ region (out d) plaintext_len = region plaintext plaintext_len.
Proof.
  intros HS Hok Hlimit Hint Ho2 e d.
  destruct (call_ok_context L a limit HS _ _ _ _ _ _ _ Hok) as [ctx Hctx].
  assert (Hp : 0 <= plaintext_len).
  { destruct Hok as [[_ Hp] _ _ _ _ _]. unfold readable in Hp. lia. }
  subst d e.
  rewrite (encrypt_sound L a limit HS _ _ _ _ _ _ _ Hok Hlimit ctx Hctx).
  cbn [status out].
  rewrite to_int_in_range by (unfold INT_MAX in *; lia).
  rewrite (decrypt_sound L a limit HS _ _ _ _ _ _ _ Hok Hlimit ctx outp2 Hctx Ho2).
  cbn [status out]. split.
  - apply to_int_in_range. unfold INT_MAX in *. lia.
  - eapply stored_plaintext, Hok.
Qed.

(** C2, at a 4 GiB plaintext. The seal succeeds and writes [2^32 + 16]
    bytes; the wrapper converts that count to [int] and returns 16.  The
    decrypt of that output writes [2^32] bytes and returns 0. *)
Theorem length_law_fails_past_int_max (L : AeadLibrary) (a : algorithm)
  (limit : Z) (plaintext key nonce aad outp outp2 : ptr) (aad_len : Z) :
  AeadSound L a limit ->
  encrypt_call_ok plaintext 4294967296 key nonce aad aad_len outp ->
  4294967296 <= limit ->
  valid outp2 4294967296 ->
  let e := encrypt L a plaintext 4294967296 key nonce 12 aad aad_len outp in
  let d := decrypt L a (out e) (4294967296 + 16) key nonce 12 aad aad_len
             outp2 in
  status e = 16 /\ status d = 0.
Proof.
  intros HS Hok Hlimit Ho2 e d.
  destruct (call_ok_context L a limit HS _ _ _ _ _ _ _ Hok) as [ctx Hctx].
  subst d e.
  rewrite (encrypt_sound L a limit HS _ _ _ _ _ _ _ Hok Hlimit ctx Hctx).
  cbn [status out].
  rewrite (decrypt_sound L a limit HS _ _ _ _ _ _ _ Hok Hlimit ctx outp2 Hctx Ho2).
  split; reflexivity.
Qed.

(** C1, at a plaintext of [2^32 - 2] bytes. The encrypt returns 14, and the
    decrypt of the untouched output, under the same key, nonce and AAD,
    returns -2, the code of an authentication failure, although it has put
    the plaintext back into the output buffer. *)
Theorem round_trip_fails_past_int_max (L : AeadLibrary) (a : algorithm)
  (limit : Z) (plaintext key nonce aad outp outp2 : ptr) (aad_len : Z) :
  AeadSound L a limit ->
  encrypt_call_ok plaintext 4294967294 key nonce aad aad_len outp ->
  4294967294 <= limit ->
  valid outp2 4294967294 ->
  let e := encrypt L a plaintext 4294967294 key nonce 12 aad aad_len outp in
  let d := decrypt L a (out e) (4294967294 + 16) key nonce 12 aad aad_len
             outp2 in
  status e = 14 /\ status d = -2
  /\ region (out d) 4294967294 = region plaintext 4294967294.
Proof.
  intros HS Hok Hlimit Ho2 e d.
  destruct (call_ok_context L a limit HS _ _ _ _ _ _ _ Hok) as [ctx Hctx].
  subst d e.
  rewrite (encrypt_sound L a limit HS _ _ _ _ _ _ _ Hok Hlimit ctx Hctx).
  cbn [status out].
  rewrite (decrypt_sound L a limit HS _ _ _ _ _ _ _ Hok Hlimit ctx outp2 Hctx Ho2).
  cbn [status out]. split; [reflexivity|]. split; [reflexivity|].
  eapply stored_plaintext, Hok.
Qed.

(** * Tampering *)

(** The return code of a tampered decrypt.  With a library that works and is
    authentic, a decrypt of a sealed message in which one bit of the
    ciphertext, the tag, the nonce, the key or the AAD was inverted returns -2
    (AuthenticationFailure), and the output buffer holds what the library
    leaves on a rejection.  Whether that fits the buffer is another matter,
    taken up in the last section. *)
Theorem tamper_detection (L : AeadLibrary) (a : algorithm) (limit : Z)
  (plaintext key nonce aad outp outp2 : ptr) (plaintext_len aad_len : Z)
  (t : target) (i : nat) (j : Z) (residue : ptr -> Z -> ptr) :
  AeadSound L a limit ->
  AeadAuthentic L a residue ->
  encrypt_call_ok plaintext plaintext_len key nonce aad aad_len outp ->
  plaintext_len <= limit ->
  is_null outp2 = false ->
  let e := encrypt L a plaintext plaintext_len key nonce 12 aad aad_len outp in
  let m := mk_message (out e) (plaintext_len + 16) key nonce aad aad_len in
  in_range t i j m ->
  let m' := tamper t i j m in
  let d := decrypt L a (m_sealed m') (m_len m') (m_key m') (m_nonce m') 12
             (m_aad m') (m_aad_len m') outp2 in
  status d = -2 /\ out d = residue outp2 (plaintext_len + 16).
Proof.
  intros HS HA Hok Hlimit Ho2 e.
  destruct (call_ok_context L a limit HS _ _ _ _ _ _ _ Hok) as [ctx Hctx].
  destruct (sound_seal _ _ _ HS _ _ _ _ _ _ _ ctx Hok Hlimit Hctx)
    as (Hret & _ & Hs).
  assert (He : out e = out_mem (seal_call L a ctx plaintext plaintext_len
                                  nonce 12 aad aad_len outp)).
  { subst e.
    rewrite (encrypt_sound L a limit HS _ _ _ _ _ _ _ Hok Hlimit ctx Hctx).
    reflexivity. }
  rewrite He. clear e He. intros m Hin m' d.
  assert (Hkey : valid (m_key m') 32).
  { subst m' m. destruct t; cbn [tamper m_key];
      try apply valid_flip; apply Hok. }
  assert (Hnul : is_null (m_sealed m') = false /\ is_null (m_nonce m') = false).
  { subst m' m. destruct t; cbn [tamper m_sealed m_nonce];
      rewrite ?is_null_flip; split; try apply Hs; apply Hok. }
  assert (Hlen : m_len m' = plaintext_len + 16).
  { subst m' m. destruct t; reflexivity. }
  pose proof (sound_init _ _ _ HS _ Hkey) as Hinit.
  destruct (context_for L a (m_key m')) as [ctx'|] eqn:Hctx'; [|congruence].
  destruct (HA _ _ _ _ _ _ _ ctx Hok Hctx Hret t i j ctx' outp2 Hin Hctx')
    as [Hrej Hout].
  subst d. rewrite decrypt_paths.
  replace (misuse L a (m_sealed m') (m_key m') (m_nonce m') 12 outp2)
    with false.
  - assert (Hg : below_guard L (m_len m') = false).
    { rewrite Hlen. apply (sealed_above_guard L a limit HS _ _ _ _ _ _ _ Hok). }
    rewrite Hg, Hctx'. cbv zeta. subst m' m. rewrite Hrej. cbn [status out].
    split; [reflexivity | rewrite Hout; f_equal; exact Hlen].
  - symmetry. unfold misuse.
    rewrite (proj1 Hnul), (proj2 Hnul), (proj1 Hkey), Ho2,
      (sound_key_length _ _ _ HS).
    reflexivity.
Qed.

(** * The operations on concrete calls *)

(** The scenario of the specification: "hello" under a zero key and a zero
    nonce seals to 21 bytes. *)
Example hello_seals_to_21_bytes :
  status (encrypt sample_library AES_256_GCM hello 5 (zeros 32) (zeros 12) 12
            None 0 (zeros 21)) = 21
  /\ length (contents sealed_hello) = 21%nat.
Proof. split; reflexivity. Qed.

Example hello_comes_back :
  decrypt sample_library AES_256_GCM sealed_hello 21 (zeros 32) (zeros 12) 12
    None 0 (zeros 5)
  = mk_call_result 5 hello [EvInit true; EvOpen 21 true; EvCleanup].
Proof. reflexivity. Qed.

Example hello_with_flipped_nonce_is_rejected :
  decrypt sample_library AES_256_GCM sealed_hello 21 (zeros 32)
    (flip (zeros 12) 11 0) 12 None 0 (zeros 5)
  = mk_call_result (-2) (zeros 5)
      [EvInit true; EvOpen 21 false; EvDiag "EVP_AEAD_CTX_open (AES)";
       EvCleanup].
Proof. reflexivity. Qed.

(** An empty plaintext seals to the 16 bytes of the tag and opens to
    nothing. *)
Example empty_message :
  let e := encrypt sample_library CHACHA20_POLY1305 (Some []) 0 (zeros 32)
             (zeros 12) 12 sample_aad 3 (zeros 16) in
  status e = 16
  /\ status (decrypt sample_library CHACHA20_POLY1305 (out e) 16 (zeros 32)
               (zeros 12) 12 sample_aad 3 (Some [])) = 0.
Proof. split; reflexivity. Qed.

(** A decrypt of five bytes: the short-input check lets it through, the
    library is asked to open and refuses. *)
Example five_bytes_reach_open :
  decrypt sample_library AES_256_GCM hello 5 (zeros 32) (zeros 12) 12
    None 0 (zeros 5)
  = mk_call_result (-2) (zeros 5)
      [EvInit true; EvOpen 5 false; EvDiag "EVP_AEAD_CTX_open (AES)";
       EvCleanup].
Proof. reflexivity. Qed.

(** One inverted bit in each part of a message, each rejected. *)
Example every_part_is_guarded :
  status (decrypt_message hello_message) = 5
  /\ status (decrypt_message (tamper InCiphertext 4 7 hello_message)) = -2
  /\ status (decrypt_message (tamper InTag 15 0 hello_message)) = -2
  /\ status (decrypt_message (tamper InNonce 0 3 hello_message)) = -2
  /\ status (decrypt_message (tamper InKey 31 5 hello_message)) = -2
  /\ status (decrypt_message (tamper InAad 2 1 hello_message)) = -2.
Proof. repeat split. Qed.

Lemma sample_call_ok :
  encrypt_call_ok hello 5 (zeros 32) (zeros 12) None 0 (zeros 21).
Proof.
  constructor; try (apply valid_zeros; lia).
  - split; [reflexivity|]. unfold readable. cbn. lia.
  - unfold readable. cbn. lia.
  - reflexivity.
Qed.

Lemma sample_sound (a : algorithm) (limit : Z) :
  AeadSound sample_library a limit.
Proof. apply parity_sound. unfold size_t. cbn. lia. Qed.

(** * Witnesses *)

Lemma nonce_length_validation_witness :
  11 <> 12
  /\ encrypt sample_library AES_256_GCM hello 5 (zeros 32) (zeros 11) 11
       None 0 (zeros 21)
     = mk_call_result (-1) (zeros 21) []
  /\ decrypt sample_library AES_256_GCM hello 5 (zeros 32) (zeros 11) 11
       None 0 (zeros 21)
     = mk_call_result (-1) (zeros 21) [].
Proof.
  split; [lia|].
  apply (nonce_length_validation sample_library AES_256_GCM hello 5
           (zeros 32) (zeros 11) 11 None 0 (zeros 21)).
  lia.
Defined.

Lemma validation_precedes_short_input_check_witness :
  5 < 16
  /\ status (decrypt sample_library CHACHA20_POLY1305 hello 5 (zeros 32)
               (zeros 11) 11 None 0 (zeros 5)) = -1.
Proof.
  split; [lia|].
  apply (validation_precedes_short_input_check sample_library
           CHACHA20_POLY1305 hello 5 (zeros 32) (zeros 11) 11 None 0
           (zeros 5)).
  - left. lia.
  - lia.
Defined.

Lemma encrypt_sentinel_collapse_witness :
  engine_failure failing_library AES_256_GCM hello 5 (zeros 32) (zeros 12) 12
    None 0 (zeros 21)
  /\ misuse failing_library AES_256_GCM hello None (zeros 12) 12 (zeros 21)
     = true
  /\ status (encrypt failing_library AES_256_GCM hello 5 (zeros 32) (zeros 12)
               12 None 0 (zeros 21)) = -1
  /\ status (encrypt failing_library AES_256_GCM hello 5 None (zeros 12)
               12 None 0 (zeros 21)) = -1.
Proof.
  assert (H : engine_failure failing_library AES_256_GCM hello 5 (zeros 32)
                (zeros 12) 12 None 0 (zeros 21)).
  { split; [reflexivity | exact I]. }
  split; [exact H|]. split; [reflexivity|].
  apply (encrypt_sentinel_collapse failing_library AES_256_GCM
           hello 5 (zeros 32) (zeros 12) 12 None 0 (zeros 21)
           hello 5 None (zeros 12) 12 None 0 (zeros 21)).
  - exact H.
  - reflexivity.
Defined.

Lemma decrypt_failure_taxonomy_witness :
  0 <= out_len (open_call sample_library (region (zeros 32) 32) sealed_hello
                  21 (zeros 12) 12 None 0 (zeros 5)) <= INT_MAX
  /\ (status (decrypt sample_library AES_256_GCM sealed_hello 21 (zeros 32)
                (zeros 12) 12 None 0 (zeros 5)) = -1
       <-> misuse sample_library AES_256_GCM sealed_hello (zeros 32)
             (zeros 12) 12 (zeros 5) = true
           \/ (misuse sample_library AES_256_GCM sealed_hello (zeros 32)
                 (zeros 12) 12 (zeros 5) = false
               /\ below_guard sample_library 21 = false
               /\ context_for sample_library AES_256_GCM (zeros 32) = None)).
Proof.
  assert (H : 0 <= out_len (open_call sample_library (region (zeros 32) 32)
                              sealed_hello 21 (zeros 12) 12 None 0 (zeros 5))
              <= INT_MAX).
  { vm_compute. split; discriminate. }
  split; [exact H|].
  apply (decrypt_failure_taxonomy sample_library AES_256_GCM sealed_hello 21
           (zeros 32) (zeros 12) 12 None 0 (zeros 5)).
  intros ctx Hctx _.
  vm_compute in Hctx. injection Hctx as <-. exact H.
Defined.

Lemma short_input_reaches_library_witness :
  EVP_AEAD_DEFAULT_TAG_LENGTH sample_library = boringssl_default_tag_length
  /\ misuse sample_library AES_256_GCM hello (zeros 32) (zeros 12) 12 (zeros 5)
     = false
  /\ 0 <= 5 < 16
  /\ reaches_init
       (decrypt sample_library AES_256_GCM hello 5 (zeros 32) (zeros 12) 12
          None 0 (zeros 5)) = true
  /\ existsb is_open
       (trace (decrypt sample_library AES_256_GCM hello 5 (zeros 32)
                 (zeros 12) 12 None 0 (zeros 5))) = true.
Proof.
  split; [reflexivity|]. split; [reflexivity|]. split; [lia|].
  apply (short_input_reaches_library sample_library AES_256_GCM hello 5
           (zeros 32) (zeros 12) 12 None 0 (zeros 5)).
  - reflexivity.
  - reflexivity.
  - lia.
Defined.

Lemma aad_pointer_not_validated_witness :
  EmptyAdUnread sample_library
  /\ reaches_init
       (encrypt sample_library AES_256_GCM hello 5 (zeros 32) (zeros 12) 12
          None 7 (zeros 21)) = true
  /\ reaches_init
       (decrypt sample_library AES_256_GCM hello 5 (zeros 32) (zeros 12) 12
          None 7 (zeros 21))
     = negb (below_guard sample_library 5)
  /\ encrypt sample_library AES_256_GCM hello 5 (zeros 32) (zeros 12) 12
       None 0 (zeros 21)
     = encrypt sample_library AES_256_GCM hello 5 (zeros 32) (zeros 12) 12
         sample_aad 0 (zeros 21)
  /\ decrypt sample_library AES_256_GCM hello 5 (zeros 32) (zeros 12) 12
       None 0 (zeros 21)
     = decrypt sample_library AES_256_GCM hello 5 (zeros 32) (zeros 12) 12
         sample_aad 0 (zeros 21).
Proof.
  split; [apply parity_empty_ad|].
  apply (aad_pointer_not_validated sample_library AES_256_GCM hello 5
           (zeros 32) (zeros 12) 12 sample_aad 7 (zeros 21)).
  - apply parity_empty_ad.
  - reflexivity.
Defined.

Lemma tamper_detection_witness :
  in_range InNonce 11 0
    (mk_message sealed_hello (5 + 16) (zeros 32) (zeros 12) None 0)
  /\ status (decrypt sample_library AES_256_GCM sealed_hello (5 + 16)
               (zeros 32) (flip (zeros 12) 11 0) 12 None 0 (zeros 5)) = -2
  /\ out (decrypt sample_library AES_256_GCM sealed_hello (5 + 16)
            (zeros 32) (flip (zeros 12) 11 0) 12 None 0 (zeros 5))
     = untouched (zeros 5) (5 + 16).
Proof.
  assert (H : in_range InNonce 11 0
                (mk_message sealed_hello (5 + 16) (zeros 32) (zeros 12)
                   None 0)).
  { split; cbn; lia. }
  split; [exact H|].
  apply (tamper_detection sample_library AES_256_GCM 1000
           hello (zeros 32) (zeros 12) None (zeros 21) (zeros 5) 5 0
           InNonce 11 0 untouched).
  - apply sample_sound.
  - apply parity_authentic.
  - apply sample_call_ok.
  - lia.
  - reflexivity.
  - exact H.
Defined.

(** * A decrypt whose context initialisation fails *)

(** C6, as the claim has it, fails: the pointers are there, the key length
    is 32 and the nonce length 12, and the decrypt returns -1 all the same,
    because the context could not be initialised. *)
Lemma decrypt_init_failure_returns_minus_1 :
  status (decrypt failing_library AES_256_GCM sealed_hello 21 (zeros 32)
            (zeros 12) 12 None 0 (zeros 5)) = -1
  /\ misuse failing_library AES_256_GCM sealed_hello (zeros 32) (zeros 12) 12
       (zeros 5) = false
  /\ trace (decrypt failing_library AES_256_GCM sealed_hello 21 (zeros 32)
              (zeros 12) 12 None 0 (zeros 5))
     = [EvInit false; EvDiag "EVP_AEAD_CTX_init (decrypt AES)"; EvCleanup].
Proof. repeat split. Qed.

Lemma round_trip_within_int_witness :
  status (decrypt sample_library CHACHA20_POLY1305
            (out (encrypt sample_library CHACHA20_POLY1305 hello 5 (zeros 32)
                    (zeros 12) 12 None 0 (zeros 21)))
            (status (encrypt sample_library CHACHA20_POLY1305 hello 5
                       (zeros 32) (zeros 12) 12 None 0 (zeros 21)))
            (zeros 32) (zeros 12) 12 None 0 (zeros 5)) = 5
  /\ region
       (out (decrypt sample_library CHACHA20_POLY1305
               (out (encrypt sample_library CHACHA20_POLY1305 hello 5
                       (zeros 32) (zeros 12) 12 None 0 (zeros 21)))
               (status (encrypt sample_library CHACHA20_POLY1305 hello 5
                          (zeros 32) (zeros 12) 12 None 0 (zeros 21)))
               (zeros 32) (zeros 12) 12 None 0 (zeros 5))) 5
     = region hello 5.
Proof.
  apply (round_trip_within_int sample_library CHACHA20_POLY1305 1000
           hello (zeros 32) (zeros 12) None (zeros 21) (zeros 5) 5 0).
  - apply sample_sound.
  - apply sample_call_ok.
  - lia.
  - unfold INT_MAX. lia.
  - apply valid_zeros. lia.
Defined.

Lemma length_law_within_int_witness :
  status (encrypt sample_library AES_256_GCM hello 5 (zeros 32) (zeros 12) 12
            None 0 (zeros 21)) = 5 + 16
  /\ status (decrypt sample_library AES_256_GCM
               (out (encrypt sample_library AES_256_GCM hello 5 (zeros 32)
                       (zeros 12) 12 None 0 (zeros 21)))
               (status (encrypt sample_library AES_256_GCM hello 5 (zeros 32)
                          (zeros 12) 12 None 0 (zeros 21)))
               (zeros 32) (zeros 12) 12 None 0 (zeros 5))
     = status (encrypt sample_library AES_256_GCM hello 5 (zeros 32)
                 (zeros 12) 12 None 0 (zeros 21)) - 16.
Proof.
  apply (length_law_within_int sample_library AES_256_GCM 1000
           hello (zeros 32) (zeros 12) None (zeros 21) (zeros 5) 5 0).
  - apply sample_sound.
  - apply sample_call_ok.
  - lia.
  - unfold INT_MAX. lia.
  - apply valid_zeros. lia.
Defined.

Lemma short_input_check_with_tag_length_16_witness :
  EVP_AEAD_DEFAULT_TAG_LENGTH (ParityAead.library 16 true) = 16
  /\ decrypt (ParityAead.library 16 true) AES_256_GCM hello 5 (zeros 32)
       (zeros 12) 12 None 0 (zeros 5)
     = mk_call_result (-2) (zeros 5) [].
Proof.
  split; [reflexivity|].
  apply (short_input_check_with_tag_length_16 (ParityAead.library 16 true)
           AES_256_GCM hello 5 (zeros 32) (zeros 12) 12 None 0 (zeros 5)).
  - reflexivity.
  - reflexivity.
  - lia.
Defined.

Lemma decrypt_announces_input_length_as_room_witness :
  Z.of_nat (length (contents (zeros 5))) = 21 - 16
  /\ nth_error
       (trace (decrypt sample_library AES_256_GCM sealed_hello 21 (zeros 32)
                 (zeros 12) 12 None 0 (zeros 5))) 1
     = Some (EvOpen (Z.of_nat (length (contents (zeros 5))) + 16)
               (ret_ok (open_call sample_library (region (zeros 32) 32)
                          sealed_hello 21 (zeros 12) 12 None 0 (zeros 5)))).
Proof.
  split; [reflexivity|].
  apply (decrypt_announces_input_length_as_room sample_library AES_256_GCM
           sealed_hello 21 (zeros 32) (zeros 12) 12 None 0 (zeros 5)
           (region (zeros 32) 32)).
  - reflexivity.
  - reflexivity.
  - reflexivity.
  - reflexivity.
Defined.

(** * Plaintexts past [INT_MAX] *)

Lemma large_call_ok (n : Z) :
  0 <= n -> n + 16 < 2 ^ 64 ->
  encrypt_call_ok (zeros n) n (zeros 32) (zeros 12) None 0 (zeros (n + 16)).
Proof.
  intros H0 H1. constructor; try (apply valid_zeros; lia).
  - unfold readable. cbn [contents length]. lia.
  - exact H1.
Qed.

Lemma length_law_fails_past_int_max_witness :
  encrypt_call_ok (zeros 4294967296) 4294967296 (zeros 32) (zeros 12) None 0
    (zeros (4294967296 + 16))
  /\ status (encrypt sample_library AES_256_GCM (zeros 4294967296) 4294967296
               (zeros 32) (zeros 12) 12 None 0 (zeros (4294967296 + 16)))
     = 16
  /\ status (decrypt sample_library AES_256_GCM
               (out (encrypt sample_library AES_256_GCM (zeros 4294967296)
                       4294967296 (zeros 32) (zeros 12) 12 None 0
                       (zeros (4294967296 + 16))))
               (4294967296 + 16) (zeros 32) (zeros 12) 12 None 0
               (zeros 4294967296)) = 0.
Proof.
  assert (H : encrypt_call_ok (zeros 4294967296) 4294967296 (zeros 32)
                (zeros 12) None 0 (zeros (4294967296 + 16))).
  { apply large_call_ok; [lia | reflexivity]. }
  split; [exact H|].
  apply (length_law_fails_past_int_max sample_library AES_256_GCM
           68719476704 (zeros 4294967296) (zeros 32) (zeros 12) None
           (zeros (4294967296 + 16)) (zeros 4294967296) 0).
  - apply sample_sound.
  - exact H.
  - lia.
  - apply valid_zeros. lia.
Defined.

Lemma round_trip_fails_past_int_max_witness :
  status (encrypt sample_library CHACHA20_POLY1305 (zeros 4294967294)
            4294967294 (zeros 32) (zeros 12) 12 None 0
            (zeros (4294967294 + 16))) = 14
  /\ status (decrypt sample_library CHACHA20_POLY1305
               (out (encrypt sample_library CHACHA20_POLY1305
                       (zeros 4294967294) 4294967294 (zeros 32) (zeros 12) 12
                       None 0 (zeros (4294967294 + 16))))
               (4294967294 + 16) (zeros 32) (zeros 12) 12 None 0
               (zeros 4294967294)) = -2
  /\ region
       (out (decrypt sample_library CHACHA20_POLY1305
               (out (encrypt sample_library CHACHA20_POLY1305
                       (zeros 4294967294) 4294967294 (zeros 32) (zeros 12) 12
                       None 0 (zeros (4294967294 + 16))))
               (4294967294 + 16) (zeros 32) (zeros 12) 12 None 0
               (zeros 4294967294)))
       4294967294
     = region (zeros 4294967294) 4294967294.
Proof.
  apply (round_trip_fails_past_int_max sample_library CHACHA20_POLY1305
           68719476704 (zeros 4294967294) (zeros 32) (zeros 12) None
           (zeros (4294967294 + 16)) (zeros 4294967294) 0).
  - apply sample_sound.
  - apply large_call_ok; [lia | reflexivity].
  - lia.
  - apply valid_zeros. lia.
Defined.

(** * What the argument checks turn away *)



(** * What an encrypt returns *)

(** X6. An encrypt returns -1 exactly when an argument check fails, the
    context initialisation fails or the seal fails, and otherwise the length
    the seal reported; it never returns -2.  This holds whenever a successful
    seal reports a length that fits an [int]. *)
Theorem encrypt_status_taxonomy (L : AeadLibrary) (a : algorithm)
  (plaintext : ptr) (plaintext_len : Z) (key nonce : ptr) (nonce_len : Z)
  (aad : ptr) (aad_len : Z) (outp : ptr) :
  (forall ctx,
      context_for L a key = Some ctx ->
      ret_ok (seal_call L a ctx plaintext plaintext_len nonce nonce_len
                aad aad_len outp) = true ->
      0 <= out_len (seal_call L a ctx plaintext plaintext_len nonce nonce_len
                      aad aad_len outp) <= INT_MAX) ->
  let r := encrypt L a plaintext plaintext_len key nonce nonce_len
             aad aad_len outp in
  (status r = -1 <->
     misuse L a plaintext key nonce nonce_len outp = true
     \/ engine_failure L a plaintext plaintext_len key nonce nonce_len
          aad aad_len outp)
  /\ (0 <= status r <->
        misuse L a plaintext key nonce nonce_len outp = false
        /\ exists ctx,
            context_for L a key = Some ctx
            /\ ret_ok (seal_call L a ctx plaintext plaintext_len nonce
                         nonce_len aad aad_len outp) = true
            /\ status r = out_len (seal_call L a ctx plaintext plaintext_len
                                     nonce nonce_len aad aad_len outp))
  /\ (status r = -1 \/ 0 <= status r).
Proof.
  intros Hfit r. subst r. unfold engine_failure. rewrite encrypt_paths.
  destruct (misuse L a plaintext key nonce nonce_len outp);
    [cbn [status]; settle_taxonomy|].
  destruct (context_for L a key) as [ctx|] eqn:Hctx;
    [|cbn [status]; settle_taxonomy].
  specialize (Hfit ctx eq_refl). cbv zeta.
  destruct (ret_ok _) eqn:Hret; [|cbn [status]; settle_taxonomy].
  specialize (Hfit eq_refl). cbn [status].
  rewrite to_int_in_range by exact Hfit.
  repeat split; intros;
    repeat match goal with
           | H : _ /\ _ |- _ => destruct H
           | H : _ \/ _ |- _ => destruct H
           end;
    try discriminate; try lia; eauto 10.
Qed.

Lemma to_int_congruent (z : Z) :
  (to_int z - z) mod 2 ^ 32 = 0 /\ - 2 ^ 31 <= to_int z < 2 ^ 31.
Proof.
  unfold to_int.
  pose proof (Z.div_mod (z + 2 ^ 31) (2 ^ 32) ltac:(lia)) as Hdm.
  pose proof (Z.mod_pos_bound (z + 2 ^ 31) (2 ^ 32) ltac:(lia)) as Hb.
  split; [|lia].
  replace ((z + 2 ^ 31) mod 2 ^ 32 - 2 ^ 31 - z)
    with (- ((z + 2 ^ 31) / 2 ^ 32) * 2 ^ 32) by lia.
  apply Z.mod_mul. lia.
Qed.

(** X7. With a working library an encrypt of any length returns the number
    of bytes written, [plaintext_len + 16], reduced modulo [2^32] into the
    range of an [int]; the decrypt of its output returns [plaintext_len]
    reduced the same way. *)
Theorem status_is_length_modulo_2_32 (L : AeadLibrary) (a : algorithm)
  (limit : Z) (plaintext key nonce aad outp outp2 : ptr)
  (plaintext_len aad_len : Z) :
  AeadSound L a limit ->
  encrypt_call_ok plaintext plaintext_len key nonce aad aad_len outp ->
  plaintext_len <= limit ->
  valid outp2 plaintext_len ->
  let e := encrypt L a plaintext plaintext_len key nonce 12 aad aad_len outp in
  let d := decrypt L a (out e) (plaintext_len + 16) key nonce 12 aad aad_len
             outp2 in
  (status e - (plaintext_len + 16)) mod 2 ^ 32 = 0
  /\ - 2 ^ 31 <= status e < 2 ^ 31
  /\ (status d - plaintext_len) mod 2 ^ 32 = 0
  /\ - 2 ^ 31 <= status d < 2 ^ 31.
Proof.
  intros HS Hok Hlimit Ho2 e d.
  destruct (call_ok_context L a limit HS _ _ _ _ _ _ _ Hok) as [ctx Hctx].
  subst d e.
  rewrite (encrypt_sound L a limit HS _ _ _ _ _ _ _ Hok Hlimit ctx Hctx).
  cbn [status out].
  rewrite (decrypt_sound L a limit HS _ _ _ _ _ _ _ Hok Hlimit ctx outp2 Hctx Ho2).
  cbn [status].
  destruct (to_int_congruent (plaintext_len + 16)) as [H1 H2].
  destruct (to_int_congruent plaintext_len) as [H3 H4].
  auto.
Qed.

(** * The output buffer *)

(** X8. The wrappers do not write to the output buffer themselves: on every
    path on which the library's seal or open is not called (an argument check
    fails, the short-input check fires, the context initialisation fails) the
    output buffer is after the call what it was before; otherwise it is what
    that one library call left. *)
Theorem output_buffer_written_only_by_library (L : AeadLibrary)
  (a : algorithm) (data : ptr) (data_len : Z) (key nonce : ptr)
  (nonce_len : Z) (aad : ptr) (aad_len : Z) (outp : ptr) :
  let e := encrypt L a data data_len key nonce nonce_len aad aad_len outp in
  let d := decrypt L a data data_len key nonce nonce_len aad aad_len outp in
  (if library_had_buffer (trace e)
   then exists ctx,
       context_for L a key = Some ctx
       /\ out e = out_mem (seal_call L a ctx data data_len nonce nonce_len
                             aad aad_len outp)
   else out e = outp)
  /\ (if library_had_buffer (trace d)
      then exists ctx,
          context_for L a key = Some ctx
          /\ out d = out_mem (open_call L ctx data data_len nonce nonce_len
                                aad aad_len outp)
      else out d = outp).
Proof.
  intros e d. subst e d. rewrite encrypt_paths, decrypt_paths.
  destruct (misuse L a data key nonce nonce_len outp).
  { split; reflexivity. }
  split.
  - destruct (context_for L a key) as [ctx|]; [|reflexivity].
    cbv zeta. destruct (ret_ok _); exists ctx; split; reflexivity.
  - destruct (below_guard L data_len); [reflexivity|].
    destruct (context_for L a key) as [ctx|]; [|reflexivity].
    cbv zeta. destruct (ret_ok _); exists ctx; split; reflexivity.
Qed.

(** * Diagnostics *)

(** X9. [handle_boringssl_errors] is called once for each library call that
    failed and at no other time: a call turned away by an argument check or
    by the short-input check, and a call that succeeds, report nothing; no
    call reports twice; and the message names the step that failed. *)
Theorem diagnostics_follow_library_failures (L : AeadLibrary) (a : algorithm)
  (data : ptr) (data_len : Z) (key nonce : ptr) (nonce_len : Z)
  (aad : ptr) (aad_len : Z) (outp : ptr) :
  let e := trace (encrypt L a data data_len key nonce nonce_len
                    aad aad_len outp) in
  let d := trace (decrypt L a data data_len key nonce nonce_len
                    aad aad_len outp) in
  count is_diag e = count is_failed_call e
  /\ count is_diag d = count is_failed_call d
  /\ (count is_diag e <= 1)%nat
  /\ (count is_diag d <= 1)%nat
  /\ (forall m, In (EvDiag m) e ->
        (m = init_message true a /\ In (EvInit false) e)
        \/ (m = step_message true a
            /\ exists n, In (EvSeal n false) e))
  /\ (forall m, In (EvDiag m) d ->
        (m = init_message false a /\ In (EvInit false) d)
        \/ (m = step_message false a
            /\ exists n, In (EvOpen n false) d)).
Proof.
  intros e d. subst e d. rewrite encrypt_paths, decrypt_paths.
  destruct (misuse L a data key nonce nonce_len outp).
  { cbn. repeat split; try lia; intros m []. }
  assert (He :
    forall t, t = trace
      match context_for L a key with
      | Some ctx =>
          let r := seal_call L a ctx data data_len nonce nonce_len aad aad_len
                     outp in
          if ret_ok r
          then mk_call_result (to_int (out_len r)) (out_mem r)
                 [EvInit true;
                  EvSeal (size_t (data_len
                                  + EVP_AEAD_max_overhead L (aead_of L a)))
                    true;
                  EvCleanup]
          else mk_call_result (-1) (out_mem r)
                 [EvInit true;
                  EvSeal (size_t (data_len
                                  + EVP_AEAD_max_overhead L (aead_of L a)))
                    false;
                  EvDiag (step_message true a); EvCleanup]
      | None =>
          mk_call_result (-1) outp
            [EvInit false; EvDiag (init_message true a); EvCleanup]
      end ->
      count is_diag t = count is_failed_call t
      /\ (count is_diag t <= 1)%nat
      /\ (forall m, In (EvDiag m) t ->
            (m = init_message true a /\ In (EvInit false) t)
            \/ (m = step_message true a /\ exists n, In (EvSeal n false) t))).
  { intros t ->. destruct (context_for L a key) as [ctx|].
    - cbv zeta. destruct (ret_ok _); cbn [trace].
      + repeat split; try (cbn; lia).
        intros m [H | [H | [H | []]]]; discriminate.
      + repeat split; try (cbn; lia).
        intros m [H | [H | [H | [H | []]]]]; try discriminate.
        injection H as <-. right. split; [reflexivity|].
        eexists. right. left. reflexivity.
    - cbn [trace]. repeat split; try (cbn; lia).
      intros m [H | [H | [H | []]]]; try discriminate.
      injection H as <-. left. split; [reflexivity|]. left. reflexivity. }
  assert (Hd :
    forall t, t = trace
      (if below_guard L data_len then mk_call_result (-2) outp []
       else
         match context_for L a key with
         | Some ctx =>
             let r := open_call L ctx data data_len nonce nonce_len aad aad_len
                        outp in
             if ret_ok r
             then mk_call_result (to_int (out_len r)) (out_mem r)
                    [EvInit true; EvOpen data_len true; EvCleanup]
             else mk_call_result (-2) (out_mem r)
                    [EvInit true; EvOpen data_len false;
                     EvDiag (step_message false a); EvCleanup]
         | None =>
             mk_call_result (-1) outp
               [EvInit false; EvDiag (init_message false a); EvCleanup]
         end) ->
      count is_diag t = count is_failed_call t
      /\ (count is_diag t <= 1)%nat
      /\ (forall m, In (EvDiag m) t ->
            (m = init_message false a /\ In (EvInit false) t)
            \/ (m = step_message false a /\ exists n, In (EvOpen n false) t))).
  { intros t ->. destruct (below_guard L data_len).
    { cbn. repeat split; try lia; intros m []. }
    destruct (context_for L a key) as [ctx|].
    - cbv zeta. destruct (ret_ok _); cbn [trace].
      + repeat split; try (cbn; lia).
        intros m [H | [H | [H | []]]]; discriminate.
      + repeat split; try (cbn; lia).
        intros m [H | [H | [H | [H | []]]]]; try discriminate.
        injection H as <-. right. split; [reflexivity|].
        eexists. right. left. reflexivity.
    - cbn [trace]. repeat split; try (cbn; lia).
      intros m [H | [H | [H | []]]]; try discriminate.
      injection H as <-. left. split; [reflexivity|]. left. reflexivity. }
  destruct (He _ eq_refl) as (E1 & E2 & E3).
  destruct (Hd _ eq_refl) as (D1 & D2 & D3).
  repeat split; assumption.
Qed.

(** * The order of library calls *)

(** X10. An encrypt never calls the library's open and a decrypt never calls
    its seal; a call seals or opens at most once, and only after its context
    initialisation has succeeded. *)
Theorem library_calls_in_order (L : AeadLibrary) (a : algorithm)
  (data : ptr) (data_len : Z) (key nonce : ptr) (nonce_len : Z)
  (aad : ptr) (aad_len : Z) (outp : ptr) :
  let e := trace (encrypt L a data data_len key nonce nonce_len
                    aad aad_len outp) in
  let d := trace (decrypt L a data data_len key nonce nonce_len
                    aad aad_len outp) in
  count is_open e = 0%nat
  /\ count is_seal d = 0%nat
  /\ (count is_seal e <= 1)%nat
  /\ (count is_open d <= 1)%nat
  /\ library_had_buffer e = starts_initialised e
  /\ library_had_buffer d = starts_initialised d.
Proof.
  intros e d. subst e d. rewrite encrypt_paths, decrypt_paths.
  destruct (misuse L a data key nonce nonce_len outp).
  { cbn. repeat split; lia. }
  assert (He : forall r : call_result,
             r = match context_for L a key with
                 | Some ctx =>
                     let s := seal_call L a ctx data data_len nonce nonce_len
                                aad aad_len outp in
                     if ret_ok s
                     then mk_call_result (to_int (out_len s)) (out_mem s)
                            [EvInit true;
                             EvSeal (size_t (data_len
                                             + EVP_AEAD_max_overhead L
                                                 (aead_of L a))) true;
                             EvCleanup]
                     else mk_call_result (-1) (out_mem s)
                            [EvInit true;
                             EvSeal (size_t (data_len
                                             + EVP_AEAD_max_overhead L
                                                 (aead_of L a))) false;
                             EvDiag (step_message true a); EvCleanup]
                 | None =>
                     mk_call_result (-1) outp
                       [EvInit false; EvDiag (init_message true a); EvCleanup]
                 end ->
             count is_open (trace r) = 0%nat
             /\ (count is_seal (trace r) <= 1)%nat
             /\ library_had_buffer (trace r) = starts_initialised (trace r)).
  { intros r ->. destruct (context_for L a key); [|cbn; repeat split; lia].
    cbv zeta. destruct (ret_ok _); cbn; repeat split; lia. }
  destruct (He _ eq_refl) as (E1 & E2 & E3).
  destruct (below_guard L data_len).
  { cbn. repeat split; try assumption; lia. }
  destruct (context_for L a key).
  - cbv zeta in *. destruct (ret_ok (open_call _ _ _ _ _ _ _ _ _));
      repeat split; try assumption; cbn; lia.
  - repeat split; try assumption; cbn; lia.
Qed.

Lemma diagnostic_is_of_its_operation (enc : bool) (L : AeadLibrary)
  (a : algorithm) (data : ptr) (data_len : Z) (key nonce : ptr)
  (nonce_len : Z) (aad : ptr) (aad_len : Z) (outp : ptr) (m : string) :
  In (EvDiag m)
    (trace (operation enc L a data data_len key nonce nonce_len
              aad aad_len outp)) ->
  m = init_message enc a \/ m = step_message enc a.
Proof.
  destruct enc; cbn [operation].
  - rewrite encrypt_paths.
    destruct (misuse _ _ _ _ _ _ _); [intros []|].
    destruct (context_for _ _ _).
    + cbv zeta. destruct (ret_ok _); cbn [trace];
        intros H; repeat (destruct H as [H | H]; try discriminate H);
        try contradiction; injection H as <-; auto.
    + cbn [trace].
      intros H; repeat (destruct H as [H | H]; try discriminate H);
        try contradiction; injection H as <-; auto.
  - rewrite decrypt_paths.
    destruct (misuse _ _ _ _ _ _ _); [intros []|].
    destruct (below_guard _ _); [intros []|].
    destruct (context_for _ _ _).
    + cbv zeta. destruct (ret_ok _); cbn [trace];
        intros H; repeat (destruct H as [H | H]; try discriminate H);
        try contradiction; injection H as <-; auto.
    + cbn [trace].
      intros H; repeat (destruct H as [H | H]; try discriminate H);
        try contradiction; injection H as <-; auto.
Qed.

(** X11. A diagnostic message tells which operation it came from: no two of
    the four operations ever hand the same context message to
    [handle_boringssl_errors]. *)
Theorem diagnostic_identifies_operation (L L' : AeadLibrary)
  (enc enc' : bool) (a a' : algorithm)
  (data : ptr) (data_len : Z) (key nonce : ptr) (nonce_len : Z)
  (aad : ptr) (aad_len : Z) (outp : ptr)
  (data' : ptr) (data_len' : Z) (key' nonce' : ptr) (nonce_len' : Z)
  (aad' : ptr) (aad_len' : Z) (outp' : ptr) (m : string) :
  In (EvDiag m)
    (trace (operation enc L a data data_len key nonce nonce_len
              aad aad_len outp)) ->
  In (EvDiag m)
    (trace (operation enc' L' a' data' data_len' key' nonce' nonce_len'
              aad' aad_len' outp')) ->
  enc = enc' /\ a = a'.
Proof.
  intros H H'.
  apply diagnostic_is_of_its_operation in H.
  apply diagnostic_is_of_its_operation in H'.
  destruct H as [-> | ->], H' as [H' | H'];
    destruct enc, enc', a, a'; cbn in H';
    first [ split; reflexivity | discriminate H' ].
Qed.

(** * The empty message *)

(** X12. An empty plaintext is a message like any other as long as its
    pointer is not NULL: with a working library it seals to 16 bytes, which
    open to a plaintext of length 0.  With a NULL plaintext pointer and
    length 0 the encrypt returns -1, and so does the decrypt of the 16 bytes
    when the output pointer is NULL, although there is nothing to write. *)
Theorem empty_message_needs_pointers (L : AeadLibrary) (a : algorithm)
  (limit : Z) (plaintext key nonce aad outp outp2 : ptr) (aad_len : Z) :
  AeadSound L a limit ->
  0 <= limit ->
  encrypt_call_ok plaintext 0 key nonce aad aad_len outp ->
  is_null outp2 = false ->
  let e := encrypt L a plaintext 0 key nonce 12 aad aad_len outp in
  status e = 16
  /\ status (decrypt L a (out e) 16 key nonce 12 aad aad_len outp2) = 0
  /\ status (encrypt L a None 0 key nonce 12 aad aad_len outp) = -1
  /\ status (decrypt L a (out e) 16 key nonce 12 aad aad_len None) = -1.
Proof.
  intros HS Hlimit Hok Ho2 e.
  destruct (call_ok_context L a limit HS _ _ _ _ _ _ _ Hok) as [ctx Hctx].
  assert (Hv : valid outp2 0).
  { split; [exact Ho2|]. unfold readable. lia. }
  pose proof (encrypt_sound L a limit HS _ _ _ _ _ _ _ Hok Hlimit ctx Hctx)
    as He.
  pose proof (decrypt_sound L a limit HS _ _ _ _ _ _ _ Hok Hlimit ctx outp2
                Hctx Hv) as Hd.
  change (0 + 16) with 16 in He, Hd.
  subst e. rewrite He. cbn [status out]. rewrite Hd. cbn [status].
  split; [reflexivity|]. split; [reflexivity|]. split.
  - rewrite encrypt_paths.
    replace (misuse L a None key nonce 12 outp) with true; [reflexivity|].
    symmetry. apply misuse_of_null. left. reflexivity.
  - rewrite decrypt_paths.
    replace (misuse L a _ key nonce 12 None) with true; [reflexivity|].
    symmetry. apply misuse_of_null. right. right. right. reflexivity.
Qed.

(** * The diagnostics routine *)

Lemma error_loop_queued (E : Stderr.ErrLibrary) (q q' : Stderr.ERR_STATE E)
  (codes : list Z) :
  Stderr.queued E q codes q' ->
  forall (fuel : nat) (err : list string),
    (length codes < fuel)%nat ->
    Stderr.error_loop E fuel q err
    = Some (q', err ++ map (Stderr.error_line E) codes).
Proof.
  induction 1 as [q q' Hget | q q1 q' c cs Hget Hc _ IH];
    intros [|fuel] err Hfuel; cbn [length] in Hfuel; try lia;
    cbn [Stderr.error_loop]; rewrite Hget.
  - cbn. rewrite app_nil_r. reflexivity.
  - apply Z.eqb_neq in Hc. rewrite Hc.
    rewrite IH by lia. cbn [map]. rewrite <- app_assoc. reflexivity.
Qed.

(** X13. [handle_boringssl_errors] ends whenever the library's error queue
    does: it writes the line with the context message, then one line for
    each queued error, oldest first, after whatever [stderr] held before, and
    it leaves the queue as the library has it once every error was taken
    off. *)
Theorem handle_boringssl_errors_drains_queue (E : Stderr.ErrLibrary)
  (q q' : Stderr.ERR_STATE E) (codes : list Z) (fuel : nat)
  (context_message : string) (err : list string) :
  Stderr.queued E q codes q' ->
  (length codes < fuel)%nat ->
  Stderr.handle_boringssl_errors E fuel context_message q err
  = Some (q', err ++ Stderr.header context_message
                  :: map (Stderr.error_line E) codes).
Proof.
  intros Hq Hfuel. unfold Stderr.handle_boringssl_errors.
  rewrite (error_loop_queued E q q' codes Hq) by exact Hfuel.
  rewrite <- app_assoc. reflexivity.
Qed.

(** * More witnesses *)


Lemma encrypt_status_taxonomy_witness :
  0 <= out_len (seal_call sample_library AES_256_GCM (region (zeros 32) 32)
                  hello 5 (zeros 12) 12 None 0 (zeros 21)) <= INT_MAX
  /\ (status (encrypt sample_library AES_256_GCM hello 5 (zeros 32)
                (zeros 12) 12 None 0 (zeros 21)) = -1
      <-> misuse sample_library AES_256_GCM hello (zeros 32) (zeros 12) 12
            (zeros 21) = true
          \/ engine_failure sample_library AES_256_GCM hello 5 (zeros 32)
               (zeros 12) 12 None 0 (zeros 21)).
Proof.
  assert (H : 0 <= out_len (seal_call sample_library AES_256_GCM
                              (region (zeros 32) 32) hello 5 (zeros 12) 12
                              None 0 (zeros 21)) <= INT_MAX).
  { vm_compute. split; discriminate. }
  split; [exact H|].
  apply (encrypt_status_taxonomy sample_library AES_256_GCM hello 5
           (zeros 32) (zeros 12) 12 None 0 (zeros 21)).
  intros ctx Hctx _.
  vm_compute in Hctx. injection Hctx as <-. exact H.
Defined.

Lemma status_is_length_modulo_2_32_witness :
  (status (encrypt sample_library CHACHA20_POLY1305 (zeros 4294967301)
             4294967301 (zeros 32) (zeros 12) 12 None 0
             (zeros (4294967301 + 16)))
   - (4294967301 + 16)) mod 2 ^ 32 = 0
  /\ - 2 ^ 31
     <= status (encrypt sample_library CHACHA20_POLY1305 (zeros 4294967301)
                  4294967301 (zeros 32) (zeros 12) 12 None 0
                  (zeros (4294967301 + 16)))
     < 2 ^ 31
  /\ (status (decrypt sample_library CHACHA20_POLY1305
                (out (encrypt sample_library CHACHA20_POLY1305
                        (zeros 4294967301) 4294967301 (zeros 32) (zeros 12)
                        12 None 0 (zeros (4294967301 + 16))))
                (4294967301 + 16) (zeros 32) (zeros 12) 12 None 0
                (zeros 4294967301))
      - 4294967301) mod 2 ^ 32 = 0
  /\ - 2 ^ 31
     <= status (decrypt sample_library CHACHA20_POLY1305
                  (out (encrypt sample_library CHACHA20_POLY1305
                          (zeros 4294967301) 4294967301 (zeros 32)
                          (zeros 12) 12 None 0 (zeros (4294967301 + 16))))
                  (4294967301 + 16) (zeros 32) (zeros 12) 12 None 0
                  (zeros 4294967301))
     < 2 ^ 31.
Proof.
  apply (status_is_length_modulo_2_32 sample_library CHACHA20_POLY1305
           68719476704 (zeros 4294967301) (zeros 32) (zeros 12) None
           (zeros (4294967301 + 16)) (zeros 4294967301) 4294967301 0).
  - apply sample_sound.
  - apply large_call_ok; [lia | reflexivity].
  - lia.
  - apply valid_zeros. lia.
Defined.

Lemma diagnostic_identifies_operation_witness :
  In (EvDiag "EVP_AEAD_CTX_init (decrypt ChaCha)")
    (trace (operation false failing_library CHACHA20_POLY1305 sealed_hello 21
              (zeros 32) (zeros 12) 12 None 0 (zeros 5)))
  /\ In (EvDiag "EVP_AEAD_CTX_init (decrypt ChaCha)")
       (trace (operation false failing_library CHACHA20_POLY1305 hello 5
                 (zeros 32) (zeros 12) 12 sample_aad 3 (zeros 5)))
  /\ false = false /\ CHACHA20_POLY1305 = CHACHA20_POLY1305.
Proof.
  assert (H1 : In (EvDiag "EVP_AEAD_CTX_init (decrypt ChaCha)")
                 (trace (operation false failing_library CHACHA20_POLY1305
                           sealed_hello 21 (zeros 32) (zeros 12) 12 None 0
                           (zeros 5)))).
  { right. left. reflexivity. }
  assert (H2 : In (EvDiag "EVP_AEAD_CTX_init (decrypt ChaCha)")
                 (trace (operation false failing_library CHACHA20_POLY1305
                           hello 5 (zeros 32) (zeros 12) 12 sample_aad 3
                           (zeros 5)))).
  { right. left. reflexivity. }
  split; [exact H1|]. split; [exact H2|].
  exact (diagnostic_identifies_operation failing_library failing_library
           false false CHACHA20_POLY1305 CHACHA20_POLY1305
           sealed_hello 21 (zeros 32) (zeros 12) 12 None 0 (zeros 5)
           hello 5 (zeros 32) (zeros 12) 12 sample_aad 3 (zeros 5)
           "EVP_AEAD_CTX_init (decrypt ChaCha)" H1 H2).
Defined.

Lemma empty_call_ok :
  encrypt_call_ok (Some []) 0 (zeros 32) (zeros 12) sample_aad 3 (zeros 16).
Proof.
  constructor; try (apply valid_zeros; lia).
  - split; [reflexivity|]. unfold readable. cbn. lia.
  - unfold readable. cbn. lia.
  - reflexivity.
Qed.

Lemma empty_message_needs_pointers_witness :
  status (encrypt sample_library AES_256_GCM (Some []) 0 (zeros 32)
            (zeros 12) 12 sample_aad 3 (zeros 16)) = 16
  /\ status (decrypt sample_library AES_256_GCM
               (out (encrypt sample_library AES_256_GCM (Some []) 0
                       (zeros 32) (zeros 12) 12 sample_aad 3 (zeros 16)))
               16 (zeros 32) (zeros 12) 12 sample_aad 3 (Some [])) = 0
  /\ status (encrypt sample_library AES_256_GCM None 0 (zeros 32) (zeros 12)
               12 sample_aad 3 (zeros 16)) = -1
  /\ status (decrypt sample_library AES_256_GCM
               (out (encrypt sample_library AES_256_GCM (Some []) 0
                       (zeros 32) (zeros 12) 12 sample_aad 3 (zeros 16)))
               16 (zeros 32) (zeros 12) 12 sample_aad 3 None) = -1.
Proof.
  apply (empty_message_needs_pointers sample_library AES_256_GCM 1000
           (Some []) (zeros 32) (zeros 12) sample_aad (zeros 16) (Some []) 3).
  - apply sample_sound.
  - lia.
  - apply empty_call_ok.
  - reflexivity.
Defined.

Lemma two_errors_queued :
  Stderr.queued Stderr.fifo [101; 202] [101; 202] [].
Proof.
  apply Stderr.queued_more with (q1 := [202]); [reflexivity | lia |].
  apply Stderr.queued_more with (q1 := []); [reflexivity | lia |].
  apply Stderr.queued_none. reflexivity.
Qed.

Lemma handle_boringssl_errors_drains_queue_witness :
  Stderr.queued Stderr.fifo [101; 202] [101; 202] []
  /\ Stderr.handle_boringssl_errors Stderr.fifo 3 "EVP_AEAD_CTX_seal (AES)"
       [101; 202] []
     = Some ([], [] ++ Stderr.header "EVP_AEAD_CTX_seal (AES)"
                   :: map (Stderr.error_line Stderr.fifo) [101; 202]).
Proof.
  split; [exact two_errors_queued|].
  apply (handle_boringssl_errors_drains_queue Stderr.fifo [101; 202] []
           [101; 202] 3 "EVP_AEAD_CTX_seal (AES)" []).
  - exact two_errors_queued.
  - cbn. lia.
Defined.

(** With nothing queued the routine writes the context line and no more. *)
Example diagnostics_of_an_empty_queue :
  Stderr.handle_boringssl_errors Stderr.fifo 1 "EVP_AEAD_CTX_open (ChaCha)"
    [] []
  = Some ([], [Stderr.header "EVP_AEAD_CTX_open (ChaCha)"]).
Proof. reflexivity. Qed.

(** * A rejected decrypt and the size of the output buffer *)

Lemma length_clear (p : ptr) (n : Z) :
  Z.of_nat (length (contents p)) <= n ->
  Z.of_nat (length (contents (clear p n))) = n.
Proof.
  intros H. unfold clear. cbn [contents].
  rewrite length_app, repeat_length, length_skipn. lia.
Qed.

Lemma length_clear_within (p : ptr) (n : Z) :
  n <= Z.of_nat (length (contents p)) ->
  length (contents (clear p n)) = length (contents p).
Proof.
  intros H. unfold clear. cbn [contents].
  rewrite length_app, repeat_length, length_skipn. lia.
Qed.

(** What a decrypt leaves when the library's open fails and clears. *)
Lemma rejected_decrypt_clears (L : AeadLibrary) (a : algorithm)
  (ciphertext_tag : ptr) (ciphertext_tag_len : Z) (key nonce : ptr)
  (nonce_len : Z) (aad : ptr) (aad_len : Z) (outp : ptr)
  (ctx : EVP_AEAD_CTX L) :
  ClearsOnReject L ->
  misuse L a ciphertext_tag key nonce nonce_len outp = false ->
  below_guard L ciphertext_tag_len = false ->
  context_for L a key = Some ctx ->
  ret_ok (open_call L ctx ciphertext_tag ciphertext_tag_len nonce nonce_len
            aad aad_len outp) = false ->
  decrypt L a ciphertext_tag ciphertext_tag_len key nonce nonce_len
    aad aad_len outp
  = mk_call_result (-2) (clear outp ciphertext_tag_len)
      [EvInit true; EvOpen ciphertext_tag_len false;
       EvDiag (step_message false a); EvCleanup].
Proof.
  intros Hclear Hok Hg Hctx Hret.
  rewrite decrypt_paths, Hok, Hg, Hctx. cbv zeta. rewrite Hret.
  unfold open_call in *. rewrite (Hclear _ _ _ _ _ _ _ _ _ Hret).
  reflexivity.
Qed.

(** C3, at a tampered message and an output buffer of the documented size.
    The decrypt tells the library that the output buffer has room for
    [ciphertext_tag_len] bytes.  A library that clears that room when it
    rejects the message writes, for a buffer of the [ciphertext_tag_len - 16]
    bytes the function's documentation asks for, 16 bytes past the end of the
    buffer; the decrypt returns -2. *)
Theorem rejected_decrypt_overruns_documented_buffer (L : AeadLibrary)
  (a : algorithm) (ciphertext_tag : ptr) (ciphertext_tag_len : Z)
  (key nonce : ptr) (nonce_len : Z) (aad : ptr) (aad_len : Z) (outp : ptr)
  (ctx : EVP_AEAD_CTX L) :
  ClearsOnReject L ->
  misuse L a ciphertext_tag key nonce nonce_len outp = false ->
  below_guard L ciphertext_tag_len = false ->
  context_for L a key = Some ctx ->
  ret_ok (open_call L ctx ciphertext_tag ciphertext_tag_len nonce nonce_len
            aad aad_len outp) = false ->
  Z.of_nat (length (contents outp)) = ciphertext_tag_len - 16 ->
  let d := decrypt L a ciphertext_tag ciphertext_tag_len key nonce nonce_len
             aad aad_len outp in
  status d = -2
  /\ out d = clear outp ciphertext_tag_len
  /\ overrun outp (out d) = 16.
Proof.
  intros Hclear Hok Hg Hctx Hret Hcap d. subst d.
  rewrite (rejected_decrypt_clears L a _ _ _ _ _ _ _ _ ctx
             Hclear Hok Hg Hctx Hret).
  cbn [status out]. split; [reflexivity|]. split; [reflexivity|].
  unfold overrun. rewrite length_clear by lia. lia.
Qed.

(** With room for [ciphertext_tag_len] bytes the clearing stays inside the
    buffer. *)
Lemma rejected_decrypt_fits_larger_buffer (L : AeadLibrary)
  (a : algorithm) (ciphertext_tag : ptr) (ciphertext_tag_len : Z)
  (key nonce : ptr) (nonce_len : Z) (aad : ptr) (aad_len : Z) (outp : ptr)
  (ctx : EVP_AEAD_CTX L) :
  ClearsOnReject L ->
  misuse L a ciphertext_tag key nonce nonce_len outp = false ->
  below_guard L ciphertext_tag_len = false ->
  context_for L a key = Some ctx ->
  ret_ok (open_call L ctx ciphertext_tag ciphertext_tag_len nonce nonce_len
            aad aad_len outp) = false ->
  ciphertext_tag_len <= Z.of_nat (length (contents outp)) ->
  overrun outp
    (out (decrypt L a ciphertext_tag ciphertext_tag_len key nonce nonce_len
            aad aad_len outp)) = 0.
Proof.
  intros Hclear Hok Hg Hctx Hret Hcap.
  rewrite (rejected_decrypt_clears L a _ _ _ _ _ _ _ _ ctx
             Hclear Hok Hg Hctx Hret).
  cbn [out]. unfold overrun. rewrite length_clear_within by exact Hcap. lia.
Qed.

Lemma clearing_library_clears : ClearsOnReject clearing_library.
Proof.
  intros ctx outp max_out_len nonce nonce_len inp in_len ad ad_len.
  cbn [EVP_AEAD_CTX_open clearing_library]. unfold clearing_open.
  destruct (ret_ok (ParityAead.open ctx outp max_out_len nonce nonce_len
                      inp in_len ad ad_len)) eqn:Hr.
  - rewrite Hr. discriminate.
  - reflexivity.
Qed.

(** "hello" with the last nonce byte changed, into a buffer of five bytes:
    the decrypt returns -2 and 21 bytes were cleared. *)
Lemma rejected_decrypt_overruns_documented_buffer_witness :
  ret_ok (open_call clearing_library (region (zeros 32) 32) sealed_hello 21
            (flip (zeros 12) 11 0) 12 None 0 (zeros 5)) = false
  /\ Z.of_nat (length (contents (zeros 5))) = 21 - 16
  /\ status (decrypt clearing_library AES_256_GCM sealed_hello 21 (zeros 32)
               (flip (zeros 12) 11 0) 12 None 0 (zeros 5)) = -2
  /\ out (decrypt clearing_library AES_256_GCM sealed_hello 21 (zeros 32)
            (flip (zeros 12) 11 0) 12 None 0 (zeros 5))
     = clear (zeros 5) 21
  /\ overrun (zeros 5)
       (out (decrypt clearing_library AES_256_GCM sealed_hello 21 (zeros 32)
               (flip (zeros 12) 11 0) 12 None 0 (zeros 5))) = 16.
Proof.
  split; [reflexivity|]. split; [reflexivity|].
  apply (rejected_decrypt_overruns_documented_buffer clearing_library
           AES_256_GCM sealed_hello 21 (zeros 32) (flip (zeros 12) 11 0) 12
           None 0 (zeros 5) (region (zeros 32) 32)).
  - apply clearing_library_clears.
  - reflexivity.
  - reflexivity.
  - reflexivity.
  - reflexivity.
  - reflexivity.
Defined.

(** The same message untampered opens into the five bytes and stays inside
    them. *)
Example accepted_decrypt_stays_inside_buffer :
  decrypt clearing_library AES_256_GCM sealed_hello 21 (zeros 32) (zeros 12)
    12 None 0 (zeros 5)
  = mk_call_result 5 hello [EvInit true; EvOpen 21 true; EvCleanup]
  /\ overrun (zeros 5) hello = 0.
Proof. split; reflexivity. Qed.
